(** * PoultryScale: the measurement session, the sale report and the sale history

    A shallow embedding of the logic of the PoultryScale application
    (Expo / React Native, TypeScript):

    - [lib/utils.ts]        [kgToGrams], [getRelativeTime];
    - [lib/types.ts]        [MeasurementRow], [SaleRecord];
    - [app/measurement.tsx] the running totals, [handleAddRow], [handleDeleteLast],
                            [canAdd], the row numbers, [formatTimer];
    - [app/report.tsx]      the aggregates of the report and the record built by [handleSave];
    - [lib/storage.ts]      [loadSales], [saveSale], [deleteSale];
    - [app/index.tsx]       the focus effect and [handleDelete] of the home screen.

    A JavaScript [number] is an IEEE 754 binary64 value and is modelled by
    Rocq's primitive [float], which is the same format with the same
    rounding; [+], [*], [/], [<=] and [>] are therefore the primitive
    operations.  A string is a sequence of code units below 256. *)

From Stdlib Require Import ZArith QArith List String Ascii Floats Bool Lia.
From stdpp Require Import gmap strings.
Import ListNotations.

Local Open Scope Z_scope.

(** ** The JavaScript built-ins the sources call *)

Module JS.

Definition number := float.

(** [isNaN(x)] on a number. *)
Definition isNaN (x : number) : bool := PrimFloat.is_nan x.

(** *** Conversions into [number]

    [number_of_Z n] is the double nearest to the integer [n] (ties to
    even, infinite beyond the range). *)
Definition number_of_Z (n : Z) : number :=
  SF2Prim (binary_normalize prec emax n 0 false).

Definition signed_zero (neg : bool) : number :=
  if neg then neg_zero else zero.

Definition signed_infinity (neg : bool) : number :=
  if neg then neg_infinity else infinity.

(** The double nearest to [n / d], for [0 <= n] and [0 < d].  The quotient
    is taken with more than 64 significant bits and a sticky last bit, so
    that the final rounding to 53 bits sees on which side of every
    rounding boundary the exact quotient lies. *)
Definition number_of_fraction (neg : bool) (n d : Z) : number :=
  if n =? 0 then signed_zero neg else
  let k := 64 - (Z.log2 n - Z.log2 d) in
  let num := if 0 <=? k then n * 2 ^ k else n in
  let den := if 0 <=? k then d else d * 2 ^ (- k) in
  let q := num / den in
  let sticky := if num mod den =? 0 then 0 else 1 in
  let m := 2 * q + sticky in
  SF2Prim (binary_normalize prec emax (if neg then - m else m) (- k - 1) false).

(** The double nearest to [digits * 10 ^ exp10], for [0 <= digits].
    Magnitudes beyond [10 ^ 400] or below [10 ^ -400] are decided without
    building the power of ten. *)
Definition number_of_decimal (neg : bool) (digits exp10 : Z) : number :=
  if digits =? 0 then signed_zero neg
  else if 400 <? exp10 + Z.log2 digits / 4 then signed_infinity neg
  else if exp10 + (Z.log2 digits + 1) <? -400 then signed_zero neg
  else if 0 <=? exp10 then number_of_fraction neg (digits * 10 ^ exp10) 1
  else number_of_fraction neg digits (10 ^ (- exp10)).

(** *** [Math.round]

    [round_half_up v k] is the integer nearest to [v / 2 ^ k], the larger
    one when two are equally near: [floor (v / 2 ^ k + 1 / 2)]. *)
Definition round_half_up (v k : Z) : Z := (2 * v + 2 ^ k) / 2 ^ (k + 1).

(** [Math.round(x)]: NaN, the infinities and the zeros are returned as they
    are, and so is every double with a non-negative exponent, which is an
    integer already.  A result of zero keeps the sign of [x]. *)
Definition Math_round (x : number) : number :=
  match Prim2SF x with
  | S754_finite s m e =>
      if 0 <=? e then x
      else
        let n := round_half_up (if s then Z.neg m else Z.pos m) (- e) in
        if n =? 0 then signed_zero s else number_of_Z n
  | _ => x
  end.

(** *** Scanning strings *)

Definition code (c : ascii) : Z := Z.of_nat (nat_of_ascii c).

(** White space and line terminators among the code units below 256:
    TAB, LF, VT, FF, CR, SP and NBSP. *)
Definition isStrWhiteSpaceChar (c : ascii) : bool :=
  let n := code c in
  ((9 <=? n) && (n <=? 13)) || (n =? 32) || (n =? 160).

Fixpoint trimStart (s : string) : string :=
  match s with
  | String c rest => if isStrWhiteSpaceChar c then trimStart rest else s
  | EmptyString => s
  end.

(** The value of [c] as a digit in radix [r], if it is one. *)
Definition digitValue (r : Z) (c : ascii) : option Z :=
  let n := code c in
  let v :=
    if (48 <=? n) && (n <=? 57) then n - 48
    else if (97 <=? n) && (n <=? 122) then n - 87
    else if (65 <=? n) && (n <=? 90) then n - 55
    else 36 in
  if v <? r then Some v else None.

(** [readDigits r s acc len] reads the longest run of radix-[r] digits at
    the front of [s]; it returns the value read (continuing [acc]), the
    number of digits read (continuing [len]) and what follows them. *)
Fixpoint readDigits (r : Z) (s : string) (acc len : Z) : Z * Z * string :=
  match s with
  | String c rest =>
      match digitValue r c with
      | Some v => readDigits r rest (acc * r + v) (len + 1)
      | None => (acc, len, s)
      end
  | EmptyString => (acc, len, s)
  end.

(** An optional sign: whether it is [-], and what follows it. *)
Definition readSign (s : string) : bool * string :=
  match s with
  | String "-" rest => (true, rest)
  | String "+" rest => (false, rest)
  | _ => (false, s)
  end.

Fixpoint startsWith (p s : string) : bool :=
  match p, s with
  | EmptyString, _ => true
  | String a p', String b s' => Ascii.eqb a b && startsWith p' s'
  | String _ _, EmptyString => false
  end.

(** *** [parseInt(string, radix)], for a radix from 2 to 36 other than 16
    (no [0x] prefix is stripped then) *)
Definition parseInt (input : string) (radix : Z) : number :=
  let (neg, s) := readSign (trimStart input) in
  if (radix <? 2) || (36 <? radix) then nan
  else
    let '(mathInt, len, _) := readDigits radix s 0 0 in
    if len =? 0 then nan
    else if mathInt =? 0 then signed_zero neg
    else number_of_Z (if neg then - mathInt else mathInt).

(** An exponent part at the front of [s]: [e] or [E], an optional sign and
    at least one digit.  Without one the exponent is 0 and nothing is
    consumed. *)
Definition readExponent (s : string) : Z :=
  match s with
  | String c rest =>
      if Ascii.eqb c "e" || Ascii.eqb c "E" then
        let (neg, ds) := readSign rest in
        let '(e, len, _) := readDigits 10 ds 0 0 in
        if len =? 0 then 0 else if neg then - e else e
      else 0
  | EmptyString => 0
  end.

(** *** [parseFloat(string)]: the value of the longest prefix of the
    trimmed string that is a [StrDecimalLiteral], NaN when there is none *)
Definition parseFloat (input : string) : number :=
  let (neg, s) := readSign (trimStart input) in
  if startsWith "Infinity" s then signed_infinity neg
  else
    let '(int, intLen, afterInt) := readDigits 10 s 0 0 in
    match afterInt with
    | String "." afterDot =>
        let '(mant, fracLen, afterFrac) := readDigits 10 afterDot int 0 in
        if (intLen =? 0) && (fracLen =? 0) then nan
        else number_of_decimal neg mant (readExponent afterFrac - fracLen)
    | _ =>
        if intLen =? 0 then nan
        else number_of_decimal neg int (readExponent afterInt)
    end.

End JS.

(** ** [lib/types.ts] *)

Module MeasurementRow.
Record t := mk {
  id : string;
  weightKg : JS.number;
  pcs : JS.number;
  timestamp : JS.number
}.
End MeasurementRow.

Module SaleRecord.
Record t := mk {
  id : string;
  totalWeightKg : JS.number;
  totalWeightGrams : JS.number;
  totalPcs : JS.number;
  averageWeightKg : JS.number;
  averageWeightGrams : JS.number;
  rows : list MeasurementRow.t;
  createdAt : JS.number
}.
End SaleRecord.

(** ** [lib/utils.ts] *)

Definition kgToGrams (kg : JS.number) : JS.number :=
  JS.Math_round (kg * 1000)%float.

(** [Platform.OS]. *)
Inductive Platform := web | ios | android.

Definition is_web (os : Platform) : bool :=
  match os with web => true | _ => false end.

(** [array.slice(start)] for a start that is not negative. *)
Definition slice {A} (start : nat) (l : list A) : list A := skipn start l.

(** ** [app/measurement.tsx]: the session

    The component state the handlers read and write.  Haptic feedback, focus
    changes and navigation are presentation and are left out. *)

Module MeasurementScreen.

Record state := mk {
  rows : list MeasurementRow.t;     (* newest first *)
  weightInput : string;
  pcsInput : string
}.

(** [useState] initial values. *)
Definition initial : state := mk [] EmptyString EmptyString.

Definition setRows (f : list MeasurementRow.t -> list MeasurementRow.t)
    (s : state) : state :=
  mk (f (rows s)) (weightInput s) (pcsInput s).

(** The derived totals, recomputed on every render. *)
Definition totalWeight (rows : list MeasurementRow.t) : JS.number :=
  fold_left (fun sum r => (sum + MeasurementRow.weightKg r)%float) rows 0%float.

Definition totalPcs (rows : list MeasurementRow.t) : JS.number :=
  fold_left (fun sum r => (sum + MeasurementRow.pcs r)%float) rows 0%float.

Definition avgWeight (rows : list MeasurementRow.t) : JS.number :=
  if (0 <? totalPcs rows)%float
  then (totalWeight rows / totalPcs rows)%float
  else 0%float.

(** The handlers return nothing; the outcome names the branch taken:
    [ValidationError] is the early [return] of [handleAddRow],
    [EmptySessionError] the early [return] of [handleDeleteLast]. *)
Inductive add_outcome := ValidationError | Added.
Inductive delete_outcome := EmptySessionError | Removed | Cancelled.

(** The guard of [handleAddRow] on the parsed inputs. *)
Definition invalidWeight (weight : JS.number) : bool :=
  JS.isNaN weight || (weight <=? 0)%float.

Definition invalidPcs (pcs : JS.number) : bool :=
  JS.isNaN pcs || (pcs <=? 0)%float.

(** [handleAddRow] of the first version of the screen: the two inputs are
    parsed, then checked one after the other.  [uuid] is what
    [Crypto.randomUUID()] returns and [now] what [Date.now()] returns in
    this call. *)
Definition handleAddRow (uuid : string) (now : JS.number) (s : state)
    : add_outcome * state :=
  let weight := JS.parseFloat (weightInput s) in
  let pcs := JS.parseInt (pcsInput s) 10 in
  if invalidWeight weight then (ValidationError, s)
  else if invalidPcs pcs then (ValidationError, s)
  else
    let newRow := MeasurementRow.mk uuid weight pcs now in
    (Added, mk (newRow :: rows s) EmptyString EmptyString).

(** [handleAddRow] of the second version: one combined test. *)
Definition handleAddRow' (uuid : string) (now : JS.number) (s : state)
    : add_outcome * state :=
  let weight := JS.parseFloat (weightInput s) in
  let pcs := JS.parseInt (pcsInput s) 10 in
  if JS.isNaN weight || (weight <=? 0)%float || JS.isNaN pcs || (pcs <=? 0)%float
  then (ValidationError, s)
  else
    let newRow := MeasurementRow.mk uuid weight pcs now in
    (Added, mk (newRow :: rows s) EmptyString EmptyString).

(** What the user answers to the confirmation [Alert] shown outside the
    web. *)
Inductive alert_button := Cancel | Delete.

(** [handleDeleteLast]: on the web the head row is dropped at once,
    elsewhere only when the user presses the destructive button. *)
Definition handleDeleteLast (os : Platform) (pressed : alert_button) (s : state)
    : delete_outcome * state :=
  if (length (rows s) =? 0)%nat then (EmptySessionError, s)
  else if is_web os then (Removed, setRows (slice 1) s)
  else
    match pressed with
    | Delete => (Removed, setRows (slice 1) s)
    | Cancel => (Cancelled, s)
    end.

(** One user action on the screen: the two inputs are typed, then the add
    button is pressed. *)
Record entry := mkEntry {
  typedWeight : string;
  typedPcs : string;
  uuid : string;
  now : JS.number
}.

Definition typeInputs (e : entry) (s : state) : state :=
  mk (rows s) (typedWeight e) (typedPcs e).

Definition addEntry (e : entry) (s : state) : add_outcome * state :=
  handleAddRow (uuid e) (now e) (typeInputs e s).

(** The parsed weight and count of an entry, and whether the guard lets
    it through. *)
Definition weightOf (e : entry) : JS.number := JS.parseFloat (typedWeight e).
Definition pcsOf (e : entry) : JS.number := JS.parseInt (typedPcs e) 10.

Definition valid (e : entry) : bool :=
  negb (invalidWeight (weightOf e)) && negb (invalidPcs (pcsOf e)).

Definition rowOf (e : entry) : MeasurementRow.t :=
  MeasurementRow.mk (uuid e) (weightOf e) (pcsOf e) (now e).

(** A sequence of add actions, oldest first. *)
Definition addAll (es : list entry) (s : state) : state :=
  fold_left (fun s e => snd (addEntry e s)) es s.

End MeasurementScreen.

(** ** [app/report.tsx]: the aggregates and the record of [handleSave] *)

Module ReportScreen.

Definition totalWeightKg (rows : list MeasurementRow.t) : JS.number :=
  fold_left (fun sum r => (sum + MeasurementRow.weightKg r)%float) rows 0%float.

Definition totalPcs (rows : list MeasurementRow.t) : JS.number :=
  fold_left (fun sum r => (sum + MeasurementRow.pcs r)%float) rows 0%float.

Definition avgWeightKg (rows : list MeasurementRow.t) : JS.number :=
  if (0 <? totalPcs rows)%float
  then (totalWeightKg rows / totalPcs rows)%float
  else 0%float.

Definition totalWeightGrams (rows : list MeasurementRow.t) : JS.number :=
  kgToGrams (totalWeightKg rows).

Definition avgWeightGrams (rows : list MeasurementRow.t) : JS.number :=
  kgToGrams (avgWeightKg rows).

(** The object literal of [handleSave]: [uuid] is the value of
    [Crypto.randomUUID()] and [now] the value [Date.now()] had when the
    screen was rendered. *)
Definition sale (rows : list MeasurementRow.t) (now : JS.number) (uuid : string)
    : SaleRecord.t :=
  {| SaleRecord.id := uuid;
     SaleRecord.totalWeightKg := totalWeightKg rows;
     SaleRecord.totalWeightGrams := totalWeightGrams rows;
     SaleRecord.totalPcs := totalPcs rows;
     SaleRecord.averageWeightKg := avgWeightKg rows;
     SaleRecord.averageWeightGrams := avgWeightGrams rows;
     SaleRecord.rows := rows;
     SaleRecord.createdAt := now |}.

End ReportScreen.

(** ** [AsyncStorage] and [JSON]

    [AsyncStorage] is a store of strings under string keys. *)

Module AsyncStorage.
Abbreviation t := (gmap string string).

Definition getItem (key : string) (st : t) : option string := st !! key.
Definition setItem (key value : string) (st : t) : t := <[key := value]> st.
End AsyncStorage.

(** [JSON.stringify] on a [SaleRecord[]] and [JSON.parse] followed by the
    cast [as SaleRecord[]].  The cast checks nothing, so parsing has three
    outcomes. *)

Module JSON.

Inductive parsed :=
  | Sales (sales : list SaleRecord.t)   (* the text encodes an array of sale records *)
  | Throws                              (* not JSON: [JSON.parse] throws a SyntaxError *)
  | Foreign.                            (* JSON of another shape, let through by the cast *)

Class codec := {
  stringify : list SaleRecord.t -> string;
  parse : string -> parsed
}.

End JSON.

(** An [async] function runs on the store and settles: it is fulfilled with a
    value or rejected with the error thrown.  [Untyped] stands for a promise
    fulfilled with a value that is not of the declared type, which only a
    [Foreign] text can cause; what the source does with such a value is
    outside this model.  The calls to [AsyncStorage] themselves are taken to
    succeed. *)

Inductive error := SyntaxError.

Inductive settled (A : Type) :=
  | Fulfilled (a : A)
  | Rejected (e : error)
  | Untyped.
Arguments Fulfilled {A} a.
Arguments Rejected {A} e.
Arguments Untyped {A}.

Definition async (A : Type) : Type := AsyncStorage.t -> settled A * AsyncStorage.t.

Definition resolve {A} (a : A) : async A := fun st => (Fulfilled a, st).
Definition throw {A} (e : error) : async A := fun st => (Rejected e, st).
Definition untyped {A} : async A := fun st => (Untyped, st).

(** [await p] followed by the rest of the function. *)
Definition await {A B} (p : async A) (k : A -> async B) : async B :=
  fun st =>
    match p st with
    | (Fulfilled a, st') => k a st'
    | (Rejected e, st') => (Rejected e, st')
    | (Untyped, st') => (Untyped, st')
    end.

Notation "'let*' x := p 'in' k" := (await p (fun x => k))
  (at level 10, x name, p at level 100, k at level 200).

Definition getItem (key : string) : async (option string) :=
  fun st => (Fulfilled (AsyncStorage.getItem key st), st).

Definition setItem (key value : string) : async unit :=
  fun st => (Fulfilled tt, AsyncStorage.setItem key value st).

(** ** [lib/storage.ts] *)

Section Storage.
Context `{JSON.codec}.

Definition SALES_KEY : string := "poultry_sales_history".

(** [return JSON.parse(data) as SaleRecord[]]. *)
Definition parseSales (data : string) : async (list SaleRecord.t) :=
  match JSON.parse data with
  | JSON.Sales sales => resolve sales
  | JSON.Throws => throw SyntaxError
  | JSON.Foreign => untyped
  end.

(** [!data] holds when the item is absent ([null]) and when it is the empty
    string. *)
Definition loadSales : async (list SaleRecord.t) :=
  let* data := getItem SALES_KEY in
  match data with
  | None => resolve []
  | Some data => if String.eqb data EmptyString then resolve [] else parseSales data
  end.

Definition saveSale (sale : SaleRecord.t) : async unit :=
  let* sales := loadSales in
  let sales := sale :: sales in                         (* sales.unshift(sale) *)
  setItem SALES_KEY (JSON.stringify sales).

Definition deleteSale (id : string) : async unit :=
  let* sales := loadSales in
  let filtered := filter (fun s => SaleRecord.id s <> id) sales in
  setItem SALES_KEY (JSON.stringify filtered).

(** [handleSave] of the report screen: build the record, then store it. *)
Definition handleSave (rows : list MeasurementRow.t) (now : JS.number)
    (uuid : string) : async unit :=
  saveSale (ReportScreen.sale rows now uuid).

End Storage.

(** ** A reference [JSON.codec]: JSON text

    The text [JSON.stringify] writes for an array of sale records and the
    reading of JSON text by [JSON.parse], over the strings of this model
    (code units below 256). *)

Module JSONText.

Local Open Scope string_scope.
Local Open Scope Z_scope.

#[local] Set Warnings "-register-all".

Inductive json :=
  | JNull
  | JBool (b : bool)
  | JNumber (x : JS.number)
  | JString (units : list Z)            (* UTF-16 code units *)
  | JArray (items : list json)
  | JObject (members : list (list Z * json)).

(** *** Writing *)

Definition quote : ascii := "034"%char.
Definition backslash : ascii := "092"%char.

Definition digitChar (d : Z) : ascii :=
  ascii_of_nat (Z.to_nat (if d <? 10 then 48 + d else 87 + d)).

Fixpoint digitsOf (fuel : nat) (n : Z) (acc : string) : string :=
  match fuel with
  | O => acc
  | S fuel =>
      let acc := String (digitChar (n mod 10)) acc in
      if n <? 10 then acc else digitsOf fuel (n / 10) acc
  end.

(** The decimal digits of [0 <= n]. *)
Definition decimal (n : Z) : string :=
  digitsOf (S (Z.to_nat (Z.log2 n))) n EmptyString.

Fixpoint zeros (n : nat) : string :=
  match n with
  | O => EmptyString
  | S n => String "0" (zeros n)
  end.

Definition take (n : Z) (s : string) : string := substring 0 (Z.to_nat n) s.
Definition drop (n : Z) (s : string) : string :=
  substring (Z.to_nat n) (String.length s - Z.to_nat n) s.

(** [num / den < 10 ^ n]. *)
Definition below_pow10 (num den n : Z) : bool :=
  if 0 <=? n then num <? den * 10 ^ n else num * 10 ^ (- n) <? den.

Fixpoint findExponent (fuel : nat) (num den n : Z) : Z :=
  match fuel with
  | O => n
  | S fuel =>
      if below_pow10 num den n then n else findExponent fuel num den (n + 1)
  end.

(** The [n] with [10 ^ (n - 1) <= num / den < 10 ^ n]. *)
Definition decimalExponent (num den : Z) : Z :=
  let l := Z.log2 num - Z.log2 den - 1 in
  findExponent 8 num den (l * 30103 / 100000 - 2).

(** [Number::toString] looks for the fewest digits [k] and the integer
    [s] of [k] digits such that [s * 10 ^ (n - k)] reads back as [x]; of
    two such integers it takes the one nearer to [x], the even one when
    they are equally near.  [num / den] is the exact value of [x > 0]. *)
Fixpoint shortestDigits (fuel : nat) (x : JS.number) (num den n k : Z)
    : Z * Z :=
  let a := if 0 <=? k - n then num * 10 ^ (k - n) else num in
  let b := if 0 <=? k - n then den else den * 10 ^ (n - k) in
  let lo := a / b in
  let hi := lo + 1 in
  let '(hi, nhi) := if hi =? 10 ^ k then (10 ^ (k - 1), n + 1) else (hi, n) in
  let okLo := (JS.number_of_decimal false lo (n - k) =? x)%float in
  let okHi := (JS.number_of_decimal false hi (nhi - k) =? x)%float in
  match fuel with
  | O => (lo, n)
  | S fuel =>
      match okLo, okHi with
      | true, false => (lo, n)
      | false, true => (hi, nhi)
      | true, true =>
          match 2 * a ?= (2 * lo + 1) * b with
          | Lt => (lo, n)
          | Gt => (hi, nhi)
          | Eq => if Z.even lo then (lo, n) else (hi, nhi)
          end
      | false, false => shortestDigits fuel x num den n (k + 1)
      end
  end.

(** [Number::toString(x)] for a finite [x]. *)
Definition numberToString (x : JS.number) : string :=
  match Prim2SF x with
  | S754_finite neg m e =>
      let num := if 0 <=? e then Z.pos m * 2 ^ e else Z.pos m in
      let den := if 0 <=? e then 1 else 2 ^ (- e) in
      let '(s, n) :=
        shortestDigits 17 (abs x) num den (decimalExponent num den) 1 in
      let ds := decimal s in
      let k := Z.of_nat (String.length ds) in
      let exponent :=
        String "e" (if 0 <? n then "+" else "-") ++ decimal (Z.abs (n - 1)) in
      let text :=
        if (k <=? n) && (n <=? 21) then ds ++ zeros (Z.to_nat (n - k))
        else if (0 <? n) && (n <=? 21) then take n ds ++ "." ++ drop n ds
        else if (-6 <? n) && (n <=? 0) then "0." ++ zeros (Z.to_nat (- n)) ++ ds
        else if k =? 1 then ds ++ exponent
        else take 1 ds ++ "." ++ drop 1 ds ++ exponent in
      (if neg then "-" else EmptyString) ++ text
  | S754_zero _ => "0"
  | S754_infinity neg => if neg then "-Infinity" else "Infinity"
  | S754_nan => "NaN"
  end.

(** [QuoteJSONString]. *)
Fixpoint escape (s : string) : string :=
  match s with
  | EmptyString => EmptyString
  | String c rest =>
      let n := JS.code c in
      let escaped (e : ascii) := String backslash (String e (escape rest)) in
      if n =? 34 then escaped quote
      else if n =? 92 then escaped backslash
      else if n =? 8 then escaped "b"%char
      else if n =? 9 then escaped "t"%char
      else if n =? 10 then escaped "n"%char
      else if n =? 12 then escaped "f"%char
      else if n =? 13 then escaped "r"%char
      else if n <? 32 then
        String backslash "u00" ++ String (digitChar (n / 16))
           (String (digitChar (n mod 16)) (escape rest))
      else String c (escape rest)
  end.

Definition quoteJSONString (s : string) : string :=
  String quote (escape s ++ String quote EmptyString).

(** A number is written by [Number::toString] when it is finite and as
    [null] otherwise. *)
Definition writeNumber (x : JS.number) : string :=
  if is_finite x then numberToString x else "null".

Definition member (key value : string) : string :=
  quoteJSONString key ++ ":" ++ value.

Fixpoint join (sep : string) (parts : list string) : string :=
  match parts with
  | [] => EmptyString
  | [p] => p
  | p :: rest => p ++ sep ++ join sep rest
  end.

Definition writeObject (members : list string) : string :=
  "{" ++ join "," members ++ "}".

Definition writeArray (items : list string) : string :=
  "[" ++ join "," items ++ "]".

(** The members are written in the order the object literal creates them. *)
Definition writeRow (r : MeasurementRow.t) : string :=
  writeObject
    [ member "id" (quoteJSONString (MeasurementRow.id r));
      member "weightKg" (writeNumber (MeasurementRow.weightKg r));
      member "pcs" (writeNumber (MeasurementRow.pcs r));
      member "timestamp" (writeNumber (MeasurementRow.timestamp r)) ].

Definition writeSale (s : SaleRecord.t) : string :=
  writeObject
    [ member "id" (quoteJSONString (SaleRecord.id s));
      member "totalWeightKg" (writeNumber (SaleRecord.totalWeightKg s));
      member "totalWeightGrams" (writeNumber (SaleRecord.totalWeightGrams s));
      member "totalPcs" (writeNumber (SaleRecord.totalPcs s));
      member "averageWeightKg" (writeNumber (SaleRecord.averageWeightKg s));
      member "averageWeightGrams" (writeNumber (SaleRecord.averageWeightGrams s));
      member "rows" (writeArray (map writeRow (SaleRecord.rows s)));
      member "createdAt" (writeNumber (SaleRecord.createdAt s)) ].

Definition stringify (sales : list SaleRecord.t) : string :=
  writeArray (map writeSale sales).

(** *** Reading *)

Inductive scan (A : Type) :=
  | Scanned (a : A) (rest : string)
  | Malformed.
Arguments Scanned {A} a rest.
Arguments Malformed {A}.

Definition scan_map {A B} (f : A -> B) (r : scan A) : scan B :=
  match r with
  | Scanned a rest => Scanned (f a) rest
  | Malformed => Malformed
  end.

Definition isJSONWhiteSpace (c : ascii) : bool :=
  let n := JS.code c in
  (n =? 32) || (n =? 9) || (n =? 10) || (n =? 13).

Fixpoint skipWhiteSpace (s : string) : string :=
  match s with
  | String c rest => if isJSONWhiteSpace c then skipWhiteSpace rest else s
  | EmptyString => s
  end.

Fixpoint units (s : string) : list Z :=
  match s with
  | EmptyString => []
  | String c rest => JS.code c :: units rest
  end.

(** The four hexadecimal digits of a [\u] escape. *)
Definition hex4 (a b c d : ascii) : option Z :=
  match JS.digitValue 16 a, JS.digitValue 16 b, JS.digitValue 16 c, JS.digitValue 16 d with
  | Some a, Some b, Some c, Some d => Some (((a * 16 + b) * 16 + c) * 16 + d)
  | _, _, _, _ => None
  end.

Definition unescape (e : ascii) : option Z :=
  let n := JS.code e in
  if (n =? 34) || (n =? 92) || (n =? 47) then Some n
  else if Ascii.eqb e "b" then Some 8
  else if Ascii.eqb e "f" then Some 12
  else if Ascii.eqb e "n" then Some 10
  else if Ascii.eqb e "r" then Some 13
  else if Ascii.eqb e "t" then Some 9
  else None.

(** The characters of a string literal after its opening quote. *)
Fixpoint readString (s : string) : scan (list Z) :=
  match s with
  | EmptyString => Malformed
  | String c rest =>
      let n := JS.code c in
      if n =? 34 then Scanned [] rest
      else if n =? 92 then
        match rest with
        | String "u" (String h1 (String h2 (String h3 (String h4 rest')))) =>
            match hex4 h1 h2 h3 h4 with
            | Some u => scan_map (cons u) (readString rest')
            | None => Malformed
            end
        | String e rest' =>
            match unescape e with
            | Some u => scan_map (cons u) (readString rest')
            | None => Malformed
            end
        | EmptyString => Malformed
        end
      else if n <? 32 then Malformed
      else scan_map (cons n) (readString rest)
  end.

(** A fraction part: a dot and at least one digit, continuing the
    mantissa [mant]. *)
Definition readFraction (mant : Z) (s : string) : scan (Z * Z) :=
  match s with
  | String "." afterDot =>
      let '(mant, fracLen, rest) := JS.readDigits 10 afterDot mant 0 in
      if fracLen =? 0 then Malformed else Scanned (mant, fracLen) rest
  | _ => Scanned (mant, 0) s
  end.

Definition readExponent (s : string) : scan Z :=
  match s with
  | String c rest =>
      if Ascii.eqb c "e" || Ascii.eqb c "E" then
        let (neg, ds) := JS.readSign rest in
        let '(e, len, rest) := JS.readDigits 10 ds 0 0 in
        if len =? 0 then Malformed else Scanned (if neg then - e else e) rest
      else Scanned 0 s
  | EmptyString => Scanned 0 s
  end.

(** A number: an optional minus sign, an integer part without a
    superfluous leading zero, an optional fraction and an optional
    exponent. *)
Definition readNumber (s : string) : scan JS.number :=
  let (neg, s) := match s with String "-" r => (true, r) | _ => (false, s) end in
  let '(int, intLen, afterInt) := JS.readDigits 10 s 0 0 in
  if (intLen =? 0) || ((1 <? intLen) && JS.startsWith "0" s) then Malformed
  else
    match readFraction int afterInt with
    | Scanned (mant, fracLen) afterFrac =>
        match readExponent afterFrac with
        | Scanned e rest => Scanned (JS.number_of_decimal neg mant (e - fracLen)) rest
        | Malformed => Malformed
        end
    | Malformed => Malformed
    end.

Definition readLiteral (word : string) (v : json) (s : string) : scan json :=
  if JS.startsWith word s then Scanned v (drop (Z.of_nat (String.length word)) s)
  else Malformed.

(** A value, the items of an array after its bracket and the members of
    an object after its brace.  Every call consumes fuel; twice the length
    of the text is enough. *)
Fixpoint readValue (fuel : nat) (s : string) : scan json :=
  match fuel with
  | O => Malformed
  | S fuel =>
      match skipWhiteSpace s with
      | String c rest as s =>
          if JS.code c =? 34 then scan_map JString (readString rest)
          else if Ascii.eqb c "[" then
            match skipWhiteSpace rest with
            | String "]" rest => Scanned (JArray []) rest
            | _ => scan_map JArray (readItems fuel rest)
            end
          else if Ascii.eqb c "{" then
            match skipWhiteSpace rest with
            | String "}" rest => Scanned (JObject []) rest
            | _ => scan_map JObject (readMembers fuel rest)
            end
          else if Ascii.eqb c "t" then readLiteral "true" (JBool true) s
          else if Ascii.eqb c "f" then readLiteral "false" (JBool false) s
          else if Ascii.eqb c "n" then readLiteral "null" JNull s
          else scan_map JNumber (readNumber s)
      | EmptyString => Malformed
      end
  end
with readItems (fuel : nat) (s : string) : scan (list json) :=
  match fuel with
  | O => Malformed
  | S fuel =>
      match readValue fuel s with
      | Scanned v rest =>
          match skipWhiteSpace rest with
          | String "," rest => scan_map (cons v) (readItems fuel rest)
          | String "]" rest => Scanned [v] rest
          | _ => Malformed
          end
      | Malformed => Malformed
      end
  end
with readMembers (fuel : nat) (s : string) : scan (list (list Z * json)) :=
  match fuel with
  | O => Malformed
  | S fuel =>
      match skipWhiteSpace s with
      | String c rest =>
          if JS.code c =? 34 then
            match readString rest with
            | Scanned key rest =>
                match skipWhiteSpace rest with
                | String ":" rest =>
                    match readValue fuel rest with
                    | Scanned v rest =>
                        match skipWhiteSpace rest with
                        | String "," rest =>
                            scan_map (cons (key, v)) (readMembers fuel rest)
                        | String "}" rest => Scanned [(key, v)] rest
                        | _ => Malformed
                        end
                    | Malformed => Malformed
                    end
                | _ => Malformed
                end
            | Malformed => Malformed
            end
          else Malformed
      | EmptyString => Malformed
      end
  end.

(** The whole text is one value between white space. *)
Definition readText (text : string) : option json :=
  match readValue (2 * String.length text + 2) text with
  | Scanned v rest =>
      match skipWhiteSpace rest with
      | EmptyString => Some v
      | _ => None
      end
  | Malformed => None
  end.

(** *** The cast [as SaleRecord[]]

    A value is read as a sale record when it has the shape of one; of
    members with the same key the last one counts. *)

Definition eqUnits (a b : list Z) : bool :=
  (length a =? length b)%nat && forallb (fun p => fst p =? snd p) (combine a b).

Fixpoint property (key : list Z) (members : list (list Z * json)) : option json :=
  match members with
  | [] => None
  | (k, v) :: rest =>
      match property key rest with
      | Some later => Some later
      | None => if eqUnits k key then Some v else None
      end
  end.

Fixpoint stringOfUnits (us : list Z) : option string :=
  match us with
  | [] => Some EmptyString
  | u :: rest =>
      if u <? 256 then
        match stringOfUnits rest with
        | Some s => Some (String (ascii_of_nat (Z.to_nat u)) s)
        | None => None
        end
      else None
  end.

Definition stringProperty (key : string) (members : list (list Z * json))
    : option string :=
  match property (units key) members with
  | Some (JString us) => stringOfUnits us
  | _ => None
  end.

Definition numberProperty (key : string) (members : list (list Z * json))
    : option JS.number :=
  match property (units key) members with
  | Some (JNumber x) => Some x
  | _ => None
  end.

Definition asRow (j : json) : option MeasurementRow.t :=
  match j with
  | JObject ms =>
      id ← stringProperty "id" ms;
      weightKg ← numberProperty "weightKg" ms;
      pcs ← numberProperty "pcs" ms;
      timestamp ← numberProperty "timestamp" ms;
      Some (MeasurementRow.mk id weightKg pcs timestamp)
  | _ => None
  end.

Definition asArray {A} (f : json -> option A) (j : option json) : option (list A) :=
  match j with
  | Some (JArray items) => mapM f items
  | _ => None
  end.

Definition asSale (j : json) : option SaleRecord.t :=
  match j with
  | JObject ms =>
      id ← stringProperty "id" ms;
      totalWeightKg ← numberProperty "totalWeightKg" ms;
      totalWeightGrams ← numberProperty "totalWeightGrams" ms;
      totalPcs ← numberProperty "totalPcs" ms;
      averageWeightKg ← numberProperty "averageWeightKg" ms;
      averageWeightGrams ← numberProperty "averageWeightGrams" ms;
      rows ← asArray asRow (property (units "rows") ms);
      createdAt ← numberProperty "createdAt" ms;
      Some (SaleRecord.mk id totalWeightKg totalWeightGrams totalPcs
              averageWeightKg averageWeightGrams rows createdAt)
  | _ => None
  end.

Definition parse (text : string) : JSON.parsed :=
  match readText text with
  | None => JSON.Throws
  | Some j =>
      match asArray asSale (Some j) with
      | Some sales => JSON.Sales sales
      | None => JSON.Foreign
      end
  end.

#[export] Instance reference : JSON.codec :=
  {| JSON.stringify := stringify; JSON.parse := parse |}.

End JSONText.

(** ** Notions used in the statements *)

(** The sum JavaScript computes when it accumulates [xs] from 0, from the
    first to the last. *)
Definition accumulate (xs : list JS.number) : JS.number :=
  fold_left (fun sum x => (sum + x)%float) xs 0%float.

(** The rational a finite double stands for (0 for NaN and the
    infinities), and the exact sum of a list of doubles. *)
Definition exact (x : JS.number) : Q :=
  match Prim2SF x with
  | S754_finite s m e => (inject_Z (if s then Z.neg m else Z.pos m) * Qpower 2 e)%Q
  | _ => 0%Q
  end.

Definition exactSum (xs : list JS.number) : Q :=
  fold_right (fun x acc => (exact x + acc)%Q) 0%Q xs.

(** The integer a double stands for, when it stands for one; whether it
    stands for a positive integer; and the sum of the integers in a list. *)
Definition integerOf (f : spec_float) : option Z :=
  match f with
  | S754_zero _ => Some 0
  | S754_finite s m e =>
      let v := if s then Z.neg m else Z.pos m in
      if 0 <=? e then Some (v * 2 ^ e)
      else if Z.pos m mod 2 ^ (- e) =? 0 then Some (v / 2 ^ (- e)) else None
  | _ => None
  end.

Definition integerValue (x : JS.number) : option Z := integerOf (Prim2SF x).

Definition isPositiveInteger (x : JS.number) : bool :=
  match integerValue x with
  | Some n => 0 <? n
  | None => false
  end.

Definition integerSum (xs : list JS.number) : Z :=
  fold_right
    (fun x acc => match integerValue x with Some n => n + acc | None => acc end)
    0 xs.

(** No addition rounds when [xs] is accumulated from [sum]: every term and
    every partial sum is finite, and every partial sum is the exact one. *)
Fixpoint roundingFree (sum : JS.number) (xs : list JS.number) : bool :=
  match xs with
  | [] => true
  | x :: xs =>
      let sum' := (sum + x)%float in
      is_finite x && is_finite sum'
      && Qeq_bool (exact sum') (exact sum + exact x)
      && roundingFree sum' xs
  end.

(** The inputs of the four rejected calls the specification lists:
    [addEntry(0, 1)], [addEntry(-1, 1)], [addEntry(1, 0)], [addEntry(1.5, -3)]. *)
Definition listedInvalid : list (string * string) :=
  [("0", "1"); ("-1", "1"); ("1", "0"); ("1.5", "-3")]%string.

(** Sample actions: 0.1 kg and 0.2 kg, one bird each; 9007199254740992 birds
    and one bird; the two weighings of the specification's scenario; a
    weight and a count of 401 digits; and two weighings of [10 ^ 308] kg. *)
Definition pointOne : MeasurementScreen.entry :=
  MeasurementScreen.mkEntry "0.1" "1" "row-1" 1700000000000%float.
Definition pointTwo : MeasurementScreen.entry :=
  MeasurementScreen.mkEntry "0.2" "1" "row-2" 1700000000001%float.
Definition manyBirds : MeasurementScreen.entry :=
  MeasurementScreen.mkEntry "1" "9007199254740992" "row-1" 1700000000000%float.
Definition oneBird : MeasurementScreen.entry :=
  MeasurementScreen.mkEntry "1" "1" "row-2" 1700000000001%float.
Definition firstWeighing : MeasurementScreen.entry :=
  MeasurementScreen.mkEntry "12.500" "10" "row-1" 1699999999000%float.
Definition secondWeighing : MeasurementScreen.entry :=
  MeasurementScreen.mkEntry "8.250" "6" "row-2" 1699999999500%float.

Definition scenarioRows : list MeasurementRow.t :=
  MeasurementScreen.rows
    (MeasurementScreen.addAll [firstWeighing; secondWeighing] MeasurementScreen.initial).

Definition manyDigits : string := String "1" (JSONText.zeros 400).
Definition hugeWeight : MeasurementScreen.entry :=
  MeasurementScreen.mkEntry manyDigits "1" "row-1" 1700000000000%float.
Definition hugeCount : MeasurementScreen.entry :=
  MeasurementScreen.mkEntry "1" manyDigits "row-1" 1700000000000%float.

Definition heavyDigits : string := String "1" (JSONText.zeros 308).
Definition heavyRows : list MeasurementRow.t :=
  MeasurementScreen.rows
    (MeasurementScreen.addAll
       [MeasurementScreen.mkEntry heavyDigits "1" "row-1" 1699999999000%float;
        MeasurementScreen.mkEntry heavyDigits "1" "row-2" 1699999999500%float]
       MeasurementScreen.initial).

(** A collection survives storage when the text written for it is not empty
    and is read back as the same collection. *)
Definition survives `{JSON.codec} (sales : list SaleRecord.t) : Prop :=
  JSON.stringify sales <> EmptyString /\
  JSON.parse (JSON.stringify sales) = JSON.Sales sales.

(** Sample records and stores, written with the reference codec: an older
    sale, the sale of the scenario, the sale of the two heavy weighings, a
    store holding the older sale next to an unrelated item, and a store whose
    item is not JSON. *)
Definition olderSale : SaleRecord.t :=
  ReportScreen.sale
    [MeasurementRow.mk "row-0" 2.5%float 2%float 1690000000000%float]
    1690000000500%float "sale-0".

Definition scenarioSale : SaleRecord.t :=
  ReportScreen.sale scenarioRows 1700000000000%float "sale-1".

Definition heavySale : SaleRecord.t :=
  ReportScreen.sale heavyRows 1700000000000%float "sale-2".

Definition sampleStore : AsyncStorage.t :=
  <["theme" := "dark"]> (<[SALES_KEY := JSONText.stringify [olderSale]]> ∅).

Definition corruptStore : AsyncStorage.t :=
  <[SALES_KEY := "[{oops"]> ∅.

(** ** [app/measurement.tsx]: the add button, the row numbers, sequences of
    actions *)

Module Measurement.
Import MeasurementScreen.

(** [canAdd] of the second version of the screen: whether the add button is
    enabled. *)
Definition canAdd (s : state) : bool :=
  (0 <? String.length (weightInput s))%nat
  && (0 <? String.length (pcsInput s))%nat
  && negb (JS.isNaN (JS.parseFloat (weightInput s)))
  && (0 <? JS.parseFloat (weightInput s))%float
  && negb (JS.isNaN (JS.parseInt (pcsInput s) 10))
  && (0 <? JS.parseInt (pcsInput s) 10)%float.

(** The number on the card of the row at [index] of the list:
    [rowNumber={rows.length - index}]. *)
Definition rowNumber (rows : list MeasurementRow.t) (index : nat) : Z :=
  Z.of_nat (length rows) - Z.of_nat index.

(** What the user does on the screen: type the two inputs and press the add
    button, press the add button again without typing, or ask to remove the
    last row. *)
Inductive action :=
  | Add (e : entry)
  | PressAdd (uuid : string) (now : JS.number)
  | DeleteLast (os : Platform) (pressed : alert_button).

Definition step (a : action) (s : state) : state :=
  match a with
  | Add e => snd (addEntry e s)
  | PressAdd uuid now => snd (handleAddRow uuid now s)
  | DeleteLast os pressed => snd (handleDeleteLast os pressed s)
  end.

Definition run (actions : list action) (s : state) : state :=
  fold_left (fun s a => step a s) actions s.

(** The entries typed in a sequence of actions, oldest first. *)
Definition typed (actions : list action) : list entry :=
  omap (fun a => match a with Add e => Some e | _ => None end) actions.

(** A row with a weight and a count greater than 0. *)
Definition positiveRow (r : MeasurementRow.t) : bool :=
  (0 <? MeasurementRow.weightKg r)%float && (0 <? MeasurementRow.pcs r)%float.

(** The inputs are stale when pressing the add button as they stand is
    refused. *)
Definition stale (s : state) : Prop :=
  forall uuid now, handleAddRow uuid now s = (ValidationError, s).

End Measurement.

(** ** [app/index.tsx]: the home screen *)

Module HomeScreen.

Record state := mk {
  sales : list SaleRecord.t;
  loading : bool
}.

(** [useState] initial values. *)
Definition initial : state := mk [] true.

(** The state of the screen once a handler has settled: a handler that is
    rejected has not reached its [setSales]. *)
Definition settledState (s : state) (r : settled state) : option state :=
  match r with
  | Fulfilled s' => Some s'
  | Rejected _ => Some s
  | Untyped => None
  end.

End HomeScreen.

Section HomeScreenHandlers.
Context `{JSON.codec}.

(** The focus effect:
    [loadSales().then((data) => { setSales(data); setLoading(false); })]. *)
Definition onFocus (s : HomeScreen.state) : async HomeScreen.state :=
  let* data := loadSales in
  resolve (HomeScreen.mk data false).

(** [handleDelete] of the home screen. *)
Definition handleDelete (id : string) (s : HomeScreen.state)
    : async HomeScreen.state :=
  let* _ := deleteSale id in
  resolve
    (HomeScreen.mk
       (filter (fun x => SaleRecord.id x <> id) (HomeScreen.sales s))
       (HomeScreen.loading s)).

(** Saving several sales one after the other, the first of the list first. *)
Fixpoint saveAll (sales : list SaleRecord.t) : async unit :=
  match sales with
  | [] => resolve tt
  | sale :: rest => let* _ := saveSale sale in saveAll rest
  end.

End HomeScreenHandlers.

(** A third sample record, saved after the other two. *)
Definition laterSale : SaleRecord.t :=
  ReportScreen.sale
    [MeasurementRow.mk "row-9" 3.25%float 3%float 1700000900000%float]
    1700000900500%float "sale-3".

(** ** [lib/utils.ts] and the timer of [app/measurement.tsx]: texts

    The functions below are applied to whole numbers of seconds and of
    milliseconds.  On integers of absolute value below [2 ^ 53] the
    arithmetic of doubles is exact: [Math.floor (a / b)] is the floor of the
    quotient, [Z.div]; [a % b] is the remainder with the sign of [a],
    [Z.rem]; and [toString] writes the decimal digits.  The arguments are
    therefore integers. *)

Module Utils.

Local Open Scope string_scope.
Local Open Scope Z_scope.







End Utils.

(** * Properties *)

(** ** Comparisons of doubles with zero *)

Section Comparisons.
Local Open Scope float_scope.

Lemma Prim2SF_zero : Prim2SF 0 = S754_zero false.
Proof. reflexivity. Qed.

(** [x > 0] fails exactly when [x] is NaN or [x <= 0]. *)
Lemma not_positive (x : JS.number) :
  JS.isNaN x || (x <=? 0) = negb (0 <? x).
Proof.
  unfold JS.isNaN, is_nan.
  rewrite FloatAxioms.eqb_spec, FloatAxioms.leb_spec, FloatAxioms.ltb_spec, Prim2SF_zero.
  destruct (Prim2SF x) as [s | s | | s m e]; try reflexivity;
    destruct s; try reflexivity;
    unfold SFeqb, SFleb, SFltb, SFcompare;
    rewrite ?Z.compare_refl, ?Pos.compare_refl; reflexivity.
Qed.

(** A positive divisor is not zero, and zero is not positive. *)
Lemma positive_not_zero (x : JS.number) : (0 <? x) = true -> (x =? 0) = false.
Proof.
  rewrite FloatAxioms.eqb_spec, FloatAxioms.ltb_spec, Prim2SF_zero.
  destruct (Prim2SF x) as [s | s | | s m e]; try destruct s; cbn; congruence.
Qed.

Lemma zero_not_positive (x : JS.number) : (x =? 0) = true -> (0 <? x) = false.
Proof.
  intros Hx. destruct (0 <? x) eqn:Hpos; [|reflexivity].
  apply positive_not_zero in Hpos. congruence.
Qed.

End Comparisons.

(** ** Sums of integers in double precision *)

Section IntegerSums.

Lemma digits2_pos_log2 (p : positive) :
  Z.pos (digits2_pos p) = Z.log2 (Z.pos p) + 1.
Proof.
  assert (Hsize : forall q, digits2_pos q = Pos.size q).
  { induction q as [q IH | q IH |]; cbn; rewrite ?IH; reflexivity. }
  rewrite Hsize. destruct p as [p | p |]; cbn; lia.
Qed.

Lemma Zdigits2_mul_pow2 (q : positive) (n : Z) :
  0 <= n -> Zdigits2 (Z.pos q * 2 ^ n) = Z.pos (digits2_pos q) + n.
Proof.
  intros Hn.
  assert (Hpos : 0 < Z.pos q * 2 ^ n) by (apply Z.mul_pos_pos; [lia | apply Z.pow_pos_nonneg; lia]).
  destruct (Z.pos q * 2 ^ n) as [| p | p] eqn:Hp; try lia.
  cbn [Zdigits2]. rewrite !digits2_pos_log2, <- Hp, Z.log2_mul_pow2 by lia. lia.
Qed.

(** Shifting an exact record right by [p] bits, when the low [p] bits are zero. *)
Lemma iter_shr_1_exact (p q : positive) :
  SpecFloat.iter_pos shr_1 p (Build_shr_record (Z.pos q * 2 ^ Z.pos p) false false)
    = Build_shr_record (Z.pos q) false false.
Proof.
  revert q. induction p as [p IH | p IH |]; intros q.
  - assert (Hm : Z.pos q * 2 ^ Z.pos p~1 = Z.pos (q * 2 ^ p * 2 ^ p)~0).
    { replace (Z.pos p~1) with (Z.pos p + Z.pos p + 1) by lia.
      rewrite !Z.pow_add_r by lia.
      change (Z.pos (q * 2 ^ p * 2 ^ p)~0) with (2 * Z.pos (q * 2 ^ p * 2 ^ p)).
      rewrite !Pos2Z.inj_mul, !Pos2Z.inj_pow. ring. }
    rewrite Hm. cbn [SpecFloat.iter_pos shr_1 orb].
    rewrite Pos2Z.inj_mul, Pos2Z.inj_pow, IH.
    rewrite Pos2Z.inj_mul, Pos2Z.inj_pow, IH. reflexivity.
  - assert (Hm : Z.pos q * 2 ^ Z.pos p~0 = Z.pos (q * 2 ^ p) * 2 ^ Z.pos p).
    { replace (Z.pos p~0) with (Z.pos p + Z.pos p) by lia.
      rewrite !Z.pow_add_r by lia.
      rewrite !Pos2Z.inj_mul, !Pos2Z.inj_pow. ring. }
    rewrite Hm. cbn [SpecFloat.iter_pos].
    rewrite IH, Pos2Z.inj_mul, Pos2Z.inj_pow, IH. reflexivity.
  - cbn [SpecFloat.iter_pos]. change (2 ^ 1) with 2.
    replace (Z.pos q * 2) with (Z.pos q~0) by lia. reflexivity.
Qed.

Lemma shl_align_value (m : positive) (d : positive) :
  Z.pos (Pos.iter xO m d) = Z.pos m * 2 ^ Z.pos d.
Proof.
  change (Pos.iter xO m d) with (Zpower.shift_pos d m).
  rewrite Zpower.shift_pos_correct. rewrite Z.mul_comm. reflexivity.
Qed.

Lemma fexp_binary64 (d : Z) : fexp prec emax d = Z.max (d - 53) (-1074).
Proof. reflexivity. Qed.

(** Rounding a mantissa that needs no shift leaves it as it is. *)
Lemma binary_round_aux_canonical (q : positive) (t : Z) :
  fexp prec emax (Z.pos (digits2_pos q) + t) = t ->
  t <= 971 ->
  binary_round_aux prec emax false (Z.pos q) t loc_Exact = S754_finite false q t.
Proof.
  intros Ht Hmax. unfold binary_round_aux, shr_fexp. cbn [Zdigits2].
  rewrite Ht, Z.sub_diag. cbn [shr shr_record_of_loc shr_m loc_of_shr_record round_nearest_even].
  cbn [Zdigits2]. rewrite Ht, Z.sub_diag. cbn [shr shr_record_of_loc shr_m].
  change (emax - prec) with 971. destruct (Z.leb_spec t 971); [reflexivity|lia].
Qed.

(** [binary_normalize] is exact on [v * 2 ^ e] when this value is [q * 2 ^ t]
    for the exponent [t] of its magnitude. *)
Lemma binary_normalize_exact (v q : positive) (e t : Z) :
  t = fexp prec emax (Z.pos (digits2_pos v) + e) ->
  t <= 971 ->
  (t <= e -> Z.pos q = Z.pos v * 2 ^ (e - t)) ->
  (e < t -> Z.pos v = Z.pos q * 2 ^ (t - e)) ->
  binary_normalize prec emax (Z.pos v) e false = S754_finite false q t.
Proof.
  intros Ht Hmax Hleft Hright.
  unfold binary_normalize, binary_round, shl_align. rewrite <- Ht.
  destruct (Z.compare_spec t e) as [Heq | Hlt | Hgt].
  - (* no shift *)
    subst e. rewrite Z.sub_diag.
    specialize (Hleft ltac:(lia)). rewrite Z.sub_diag, Z.mul_1_r in Hleft.
    injection Hleft as ->.
    apply binary_round_aux_canonical; [symmetry; assumption | assumption].
  - (* shift left *)
    specialize (Hleft ltac:(lia)).
    destruct (t - e) as [|d|d] eqn:Hd; try lia.
    assert (Hq : q = Pos.iter xO v d).
    { apply Pos2Z.inj. rewrite shl_align_value, Hleft. f_equal; f_equal; lia. }
    rewrite <- Hq.
    apply binary_round_aux_canonical; [|assumption].
    pose proof (Zdigits2_mul_pow2 v (e - t) ltac:(lia)) as Hdig.
    rewrite <- Hleft in Hdig. cbn [Zdigits2] in Hdig.
    replace (Z.pos (digits2_pos q) + t) with (Z.pos (digits2_pos v) + e) by lia.
    symmetry. exact Ht.
  - (* shift right *)
    specialize (Hright ltac:(lia)).
    destruct (t - e) as [|d|d] eqn:Hd; try lia.
    unfold binary_round_aux, shr_fexp. cbn [Zdigits2].
    rewrite <- Ht, Hd. cbn [shr shr_record_of_loc].
    rewrite Hright, iter_shr_1_exact.
    cbn [shr_m loc_of_shr_record round_nearest_even Zdigits2].
    assert (Hdig : fexp prec emax (Z.pos (digits2_pos q) + (e + Z.pos d)) = e + Z.pos d).
    { pose proof (Zdigits2_mul_pow2 q (Z.pos d) ltac:(lia)) as Hdig.
      rewrite <- Hright in Hdig. cbn [Zdigits2] in Hdig.
      replace (Z.pos (digits2_pos q) + (e + Z.pos d))
        with (Z.pos (digits2_pos v) + e) by lia.
      lia. }
    rewrite Hdig, Z.sub_diag. cbn [shr shr_m].
    change (emax - prec) with 971.
    replace (e + Z.pos d) with t by lia.
    destruct (Z.leb_spec t 971); [reflexivity|lia].
Qed.

Lemma pow2_pos (k : Z) : 0 <= k -> 0 < 2 ^ k.
Proof. intros Hk. apply Z.pow_pos_nonneg; lia. Qed.

Lemma pow2_split (j k : Z) : 0 <= j -> 0 <= k -> 2 ^ (j + k) = 2 ^ j * 2 ^ k.
Proof. intros Hj Hk. apply Z.pow_add_r; assumption. Qed.

(** A positive float that stands for the integer [a], with its mantissa
    aligned to an exponent [ez] not above its own. *)
Lemma aligned_integer (m : positive) (e ez a : Z) :
  integerOf (S754_finite false m e) = Some a ->
  ez <= e ->
  0 < a /\
  (0 <= ez -> Z.pos m * 2 ^ (e - ez) * 2 ^ ez = a) /\
  (ez < 0 -> Z.pos m * 2 ^ (e - ez) = a * 2 ^ (- ez)).
Proof.
  unfold integerOf. intros Ha Hez.
  destruct (Z.leb_spec 0 e) as [He | He].
  - assert (Hval : Z.pos m * 2 ^ e = a) by congruence. clear Ha. subst a.
    pose proof (pow2_pos e He). split; [apply Z.mul_pos_pos; lia|].
    split; intros Hsign.
    + rewrite <- Z.mul_assoc, <- pow2_split by lia. f_equal; f_equal; lia.
    + replace (e - ez) with (e + - ez) by lia. rewrite pow2_split by lia. ring.
  - destruct (Z.eqb_spec (Z.pos m mod 2 ^ (- e)) 0) as [Hmod | Hmod]; [|discriminate].
    assert (Hval : Z.pos m / 2 ^ (- e) = a) by congruence. clear Ha. subst a.
    pose proof (pow2_pos (- e) ltac:(lia)) as Hpow.
    assert (Hm : Z.pos m = Z.pos m / 2 ^ (- e) * 2 ^ (- e)).
    { pose proof (Z.div_mod (Z.pos m) (2 ^ (- e)) ltac:(lia)). lia. }
    split; [|split; intros Hsign; [lia|]].
    + destruct (Z.pos m / 2 ^ (- e)) eqn:Hq; lia.
    + rewrite Hm at 1. rewrite <- Z.mul_assoc, <- pow2_split by lia.
      f_equal; f_equal; lia.
Qed.

Lemma shl_align_fst (m : positive) (e ez : Z) :
  ez <= e -> Z.pos (fst (shl_align m e ez)) = Z.pos m * 2 ^ (e - ez).
Proof.
  intros Hez. unfold shl_align.
  destruct (ez - e) as [|d|d] eqn:Hd; try lia; cbn [fst].
  - replace (e - ez) with 0 by lia. lia.
  - rewrite shl_align_value. f_equal; f_equal; lia.
Qed.

(** Adding two positive floats that stand for integers whose sum is below
    [2 ^ 53] gives the float that stands for the sum. *)
Lemma SFadd_integers (mx my : positive) (ex ey a b : Z) :
  integerOf (S754_finite false mx ex) = Some a ->
  integerOf (S754_finite false my ey) = Some b ->
  a + b < 2 ^ 53 ->
  exists q t,
    SFadd prec emax (S754_finite false mx ex) (S754_finite false my ey)
      = S754_finite false q t /\
    integerOf (S754_finite false q t) = Some (a + b).
Proof.
  intros Hx Hy Hsum. set (ez := Z.min ex ey).
  destruct (aligned_integer mx ex ez a Hx ltac:(lia)) as (Ha & Hxpos & Hxneg).
  destruct (aligned_integer my ey ez b Hy ltac:(lia)) as (Hb & Hypos & Hyneg).
  unfold SFadd. fold ez. cbn [cond_Zopp].
  pose proof (shl_align_fst mx ex ez ltac:(lia)) as Hmx.
  pose proof (shl_align_fst my ey ez ltac:(lia)) as Hmy.
  set (mx' := fst (shl_align mx ex ez)) in *.
  set (my' := fst (shl_align my ey ez)) in *.
  change (Z.pos mx' + Z.pos my') with (Z.pos (mx' + my')).
  (* the sum as a positive number, its size and its exponent *)
  destruct (a + b) as [|v|v] eqn:Hv; try lia.
  set (t := Z.log2 (Z.pos v) - 52).
  assert (Hlog : 0 <= Z.log2 (Z.pos v) <= 52).
  { split; [apply Z.log2_nonneg|].
    assert (Z.log2 (Z.pos v) < 53); [|lia].
    apply Z.log2_lt_pow2; lia. }
  assert (Hpow : 0 < 2 ^ (- t)) by (apply pow2_pos; lia).
  destruct (Z.pos v * 2 ^ (- t)) as [|q|q] eqn:Hq; try lia.
  (* the aligned sum in terms of the integer sum *)
  assert (HMpos : 0 <= ez -> Z.pos (mx' + my') * 2 ^ ez = Z.pos v).
  { intros Hsign. rewrite Pos2Z.inj_add, Hmx, Hmy, <- Hv.
    rewrite <- (Hxpos Hsign), <- (Hypos Hsign). ring. }
  assert (HMneg : ez < 0 -> Z.pos (mx' + my') = Z.pos v * 2 ^ (- ez)).
  { intros Hsign. rewrite Pos2Z.inj_add, Hmx, Hmy, <- Hv.
    rewrite (Hxneg Hsign), (Hyneg Hsign). ring. }
  assert (Hdigits : Z.pos (digits2_pos (mx' + my')) + ez = Z.log2 (Z.pos v) + 1).
  { destruct (Z.leb_spec 0 ez) as [Hsign | Hsign].
    - pose proof (Zdigits2_mul_pow2 (mx' + my') ez Hsign) as Hd.
      rewrite (HMpos Hsign) in Hd. cbn [Zdigits2] in Hd.
      rewrite digits2_pos_log2 in Hd. lia.
    - pose proof (Zdigits2_mul_pow2 v (- ez) ltac:(lia)) as Hd.
      rewrite <- (HMneg Hsign) in Hd. cbn [Zdigits2] in Hd.
      rewrite (digits2_pos_log2 v) in Hd. lia. }
  exists q, t. split.
  - apply binary_normalize_exact.
    + rewrite Hdigits, fexp_binary64. lia.
    + lia.
    + intros Hle. rewrite <- Hq.
      destruct (Z.leb_spec 0 ez) as [Hsign | Hsign].
      * rewrite <- (HMpos Hsign), <- Z.mul_assoc, <- pow2_split by lia.
        f_equal; f_equal; lia.
      * rewrite (HMneg Hsign), <- Z.mul_assoc, <- pow2_split by lia.
        f_equal; f_equal; lia.
    + intros Hlt. rewrite <- Hq, (HMneg ltac:(lia)).
      rewrite <- Z.mul_assoc, <- pow2_split by lia. f_equal; f_equal; lia.
  - unfold integerOf.
    destruct (Z.leb_spec 0 t) as [Ht | Ht].
    + assert (t = 0) by lia. subst t.
      replace (Z.log2 (Z.pos v) - 52) with 0 in * by lia.
      cbn in Hq. f_equal. lia.
    + rewrite <- Hq, Z.mod_mul, Z.div_mul by lia. reflexivity.
Qed.

Lemma integerOf_sign (s : bool) (m : positive) (e a : Z) :
  integerOf (S754_finite s m e) = Some a -> 0 <= a -> s = false.
Proof.
  destruct s; [|reflexivity]. unfold integerOf. intros Ha Hpos. exfalso.
  destruct (Z.leb_spec 0 e) as [He | He].
  - assert (Hval : Z.neg m * 2 ^ e = a) by congruence.
    pose proof (pow2_pos e He). 
    assert (Z.neg m * 2 ^ e < 0) by (apply Z.mul_neg_pos; lia). lia.
  - destruct (Z.pos m mod 2 ^ (- e) =? 0); [|discriminate].
    assert (Hval : Z.neg m / 2 ^ (- e) = a) by congruence.
    pose proof (pow2_pos (- e) ltac:(lia)).
    assert (Z.neg m / 2 ^ (- e) < 0) by (apply Z.div_lt_upper_bound; lia). lia.
Qed.

(** Adding a positive integer to a non-negative integer, below [2 ^ 53]. *)
Lemma add_integers (x y : JS.number) (a b : Z) :
  integerValue x = Some a -> integerValue y = Some b ->
  0 <= a -> 0 < b -> a + b < 2 ^ 53 ->
  integerValue (x + y)%float = Some (a + b).
Proof.
  unfold integerValue. rewrite FloatAxioms.add_spec. unfold SF64add.
  intros Hx Hy Ha Hb Hsum.
  destruct (Prim2SF y) as [sy | sy | | sy my ey]; try discriminate.
  { cbn in Hy. injection Hy as <-. lia. }
  pose proof (integerOf_sign _ _ _ _ Hy ltac:(lia)) as ->.
  destruct (Prim2SF x) as [sx | sx | | sx mx ex]; try discriminate.
  - cbn in Hx. injection Hx as <-. cbn [SFadd]. exact Hy.
  - pose proof (integerOf_sign _ _ _ _ Hx Ha) as ->.
    destruct (SFadd_integers mx my ex ey a b Hx Hy Hsum) as (q & t & -> & Hq).
    exact Hq.
Qed.

Lemma accumulate_snoc (xs : list JS.number) (x : JS.number) :
  accumulate (xs ++ [x]) = (accumulate xs + x)%float.
Proof. unfold accumulate. rewrite fold_left_app. reflexivity. Qed.

Lemma integerSum_nonneg (xs : list JS.number) :
  forallb isPositiveInteger xs = true -> 0 <= integerSum xs.
Proof.
  induction xs as [|x xs IH]; [cbn; lia|].
  cbn [forallb]. intros [Hx Hxs]%andb_prop. specialize (IH Hxs).
  unfold integerSum in *. cbn [fold_right].
  unfold isPositiveInteger in Hx. destruct (integerValue x); [|discriminate].
  apply Z.ltb_lt in Hx. lia.
Qed.

(** The double-precision sum of positive integers, accumulated from the last
    to the first, is their sum as long as it stays below [2 ^ 53]. *)
Lemma accumulate_integers (xs : list JS.number) :
  forallb isPositiveInteger xs = true ->
  integerSum xs < 2 ^ 53 ->
  integerValue (accumulate (rev xs)) = Some (integerSum xs).
Proof.
  induction xs as [|x xs IH]; [reflexivity|].
  cbn [forallb rev]. intros [Hx Hxs]%andb_prop.
  pose proof (integerSum_nonneg xs Hxs) as Hnonneg.
  replace (integerSum (x :: xs))
    with (match integerValue x with Some n => n + integerSum xs | None => integerSum xs end)
    by reflexivity.
  unfold isPositiveInteger in Hx.
  destruct (integerValue x) as [n|] eqn:Hn; [|discriminate].
  apply Z.ltb_lt in Hx. intros Hsum.
  rewrite accumulate_snoc, Z.add_comm.
  apply add_integers; try assumption; try lia.
  apply IH; [assumption | lia].
Qed.

End IntegerSums.

(** ** The session: adding rows *)

Section Session.
Import MeasurementScreen.
Local Open Scope float_scope.

(** An add action either prepends the parsed row and clears the inputs,
    or changes nothing but the typed inputs. *)
Lemma addEntry_cases (e : entry) (s : state) :
  addEntry e s =
    if valid e
    then (Added, mk (rowOf e :: rows s) EmptyString EmptyString)
    else (ValidationError, typeInputs e s).
Proof.
  unfold addEntry, handleAddRow, valid, rowOf, weightOf, pcsOf. cbn.
  destruct (invalidWeight _); [reflexivity|].
  destruct (invalidPcs _); reflexivity.
Qed.

(** The two versions of [handleAddRow] are the same function. *)
Lemma handleAddRow_versions (uuid : string) (now : JS.number) (s : state) :
  handleAddRow' uuid now s = handleAddRow uuid now s.
Proof.
  unfold handleAddRow', handleAddRow, invalidWeight, invalidPcs.
  destruct (JS.isNaN (JS.parseFloat _)); [reflexivity|].
  destruct (JS.parseFloat _ <=? 0); [reflexivity|]. cbn.
  destruct (JS.isNaN (JS.parseInt _ _)); [reflexivity|].
  destruct (JS.parseInt _ _ <=? 0); reflexivity.
Qed.

Lemma valid_positive (e : entry) :
  valid e = (0 <? weightOf e) && (0 <? pcsOf e).
Proof.
  unfold valid, invalidWeight, invalidPcs.
  rewrite !not_positive, !negb_involutive. reflexivity.
Qed.

(** The rows after a sequence of add actions: the accepted ones, newest
    first, in front of the rows there were. *)
Lemma rows_addAll (es : list entry) (s : state) :
  rows (addAll es s) = rev (map rowOf (List.filter valid es)) ++ rows s.
Proof.
  revert s. induction es as [|e es IH]; intros s; [reflexivity|].
  unfold addAll in *. cbn [fold_left List.filter].
  rewrite IH, addEntry_cases.
  destruct (valid e); cbn [snd rows map rev typeInputs]; [|reflexivity].
  rewrite <- app_assoc. reflexivity.
Qed.

Lemma filter_all {A} (p : A -> bool) (l : list A) :
  forallb p l = true -> List.filter p l = l.
Proof.
  induction l as [|a l IH]; cbn; [reflexivity|].
  intros [Ha Hl]%andb_prop. rewrite Ha, IH; auto.
Qed.

Lemma totalWeight_accumulate (rs : list MeasurementRow.t) :
  totalWeight rs = accumulate (map MeasurementRow.weightKg rs).
Proof.
  unfold totalWeight, accumulate. generalize 0.
  induction rs as [|r rs IH]; intros a; cbn; [reflexivity|apply IH].
Qed.

Lemma totalPcs_accumulate (rs : list MeasurementRow.t) :
  totalPcs rs = accumulate (map MeasurementRow.pcs rs).
Proof.
  unfold totalPcs, accumulate. generalize 0.
  induction rs as [|r rs IH]; intros a; cbn; [reflexivity|apply IH].
Qed.

(** Without rounding the accumulated sum is the exact sum. *)
Lemma exact_fold_left (xs : list JS.number) (a : JS.number) :
  roundingFree a xs = true ->
  (exact (fold_left (fun sum x => (sum + x)%float) xs a) == exact a + exactSum xs)%Q.
Proof.
  revert a. induction xs as [|x xs IH]; intros a Hfree; cbn.
  - rewrite Qplus_0_r. reflexivity.
  - cbn in Hfree.
    apply andb_prop in Hfree as [Hfree Hrest].
    apply andb_prop in Hfree as [_ Hstep].
    apply Qeq_bool_iff in Hstep.
    rewrite (IH _ Hrest), Hstep. symmetry. apply Qplus_assoc.
Qed.

Lemma exactSum_app (xs ys : list JS.number) :
  (exactSum (xs ++ ys) == exactSum xs + exactSum ys)%Q.
Proof.
  induction xs as [|x xs IH]; cbn.
  - rewrite Qplus_0_l. reflexivity.
  - rewrite IH. apply Qplus_assoc.
Qed.

Lemma exactSum_rev (xs : list JS.number) : (exactSum (rev xs) == exactSum xs)%Q.
Proof.
  induction xs as [|x xs IH]; cbn; [reflexivity|].
  rewrite exactSum_app, IH. cbn. rewrite Qplus_0_r. apply Qplus_comm.
Qed.

Lemma exact_accumulate (xs : list JS.number) :
  roundingFree 0%float (rev xs) = true ->
  (exact (accumulate (rev xs)) == exactSum xs)%Q.
Proof.
  intros Hfree. unfold accumulate.
  rewrite (exact_fold_left _ _ Hfree), exactSum_rev.
  change (exact 0%float) with 0%Q. apply Qplus_0_l.
Qed.

End Session.

Section SessionClaims.
Import MeasurementScreen.
Local Open Scope float_scope.

(** C1, as the code has it.  After any sequence of valid add actions on an
    empty session, the rows are the added ones, newest first, and
    [totalWeight] and [totalPcs] are the double-precision sums of the added
    weights and of the added counts, accumulated from 0 from the newest to
    the oldest.  The total weight is the exact sum of the weights when none
    of its additions rounds; the total count is the exact sum of the counts
    when these are positive integers and their sum is below [2 ^ 53]. *)
Theorem totals_after_adds (es : list entry) :
  forallb valid es = true ->
  let s := addAll es initial in
  rows s = rev (map rowOf es) /\
  totalWeight (rows s) = accumulate (rev (map weightOf es)) /\
  totalPcs (rows s) = accumulate (rev (map pcsOf es)) /\
  (roundingFree 0 (rev (map weightOf es)) = true ->
     (exact (totalWeight (rows s)) == exactSum (map weightOf es))%Q) /\
  (forallb isPositiveInteger (map pcsOf es) = true ->
   (integerSum (map pcsOf es) < 2 ^ 53)%Z ->
     integerValue (totalPcs (rows s)) = Some (integerSum (map pcsOf es))).
Proof.
  intros Hvalid s. subst s.
  assert (Hrows : rows (addAll es initial) = rev (map rowOf es)).
  { rewrite rows_addAll, filter_all by assumption. apply app_nil_r. }
  assert (Hweight : totalWeight (rows (addAll es initial))
                      = accumulate (rev (map weightOf es))).
  { rewrite totalWeight_accumulate, Hrows, <- !map_rev, map_map. reflexivity. }
  assert (Hpcs : totalPcs (rows (addAll es initial))
                   = accumulate (rev (map pcsOf es))).
  { rewrite totalPcs_accumulate, Hrows, <- !map_rev, map_map. reflexivity. }
  rewrite Hweight, Hpcs.
  repeat split; auto using exact_accumulate, accumulate_integers.
Qed.

Lemma totals_after_adds_witness :
  totalWeight (rows (addAll [pointOne; pointTwo] initial))
    = accumulate [weightOf pointTwo; weightOf pointOne] /\
  (exact (totalWeight (rows (addAll [firstWeighing; secondWeighing] initial)))
     == exactSum [weightOf firstWeighing; weightOf secondWeighing])%Q /\
  integerValue (totalPcs (rows (addAll [firstWeighing; secondWeighing] initial)))
    = Some (integerSum [pcsOf firstWeighing; pcsOf secondWeighing]).
Proof.
  split; [|split].
  - apply (proj1 (proj2 (totals_after_adds [pointOne; pointTwo]
                           ltac:(vm_compute; reflexivity)))).
  - apply (proj1 (proj2 (proj2 (proj2
             (totals_after_adds [firstWeighing; secondWeighing]
                ltac:(vm_compute; reflexivity)))))).
    vm_compute. reflexivity.
  - apply (proj2 (proj2 (proj2 (proj2
             (totals_after_adds [firstWeighing; secondWeighing]
                ltac:(vm_compute; reflexivity)))))).
    + vm_compute. reflexivity.
    + vm_compute. reflexivity.
Defined.

(** C1 as stated fails: after adding 0.1 kg and 0.2 kg the total weight is
    0.30000000000000004, which is not the sum of the two added weights;
    and after adding 9007199254740992 birds and then 1 bird the total count
    is 9007199254740992. *)
Lemma totals_not_exact_sums :
  (forallb valid [pointOne; pointTwo] = true /\
   forallb is_finite (map weightOf [pointOne; pointTwo]) = true /\
   totalWeight (rows (addAll [pointOne; pointTwo] initial)) = 0x1.3333333333334p-2 /\
   ~ (exact (totalWeight (rows (addAll [pointOne; pointTwo] initial)))
        == exactSum (map weightOf [pointOne; pointTwo]))%Q) /\
  (forallb valid [manyBirds; oneBird] = true /\
   exactSum (map pcsOf [manyBirds; oneBird]) == 9007199254740993 /\
   exact (totalPcs (rows (addAll [manyBirds; oneBird] initial))) == 9007199254740992)%Q.
Proof.
  repeat split; try (vm_compute; reflexivity).
  intros Heq. apply Qeq_bool_iff in Heq. vm_compute in Heq. discriminate.
Qed.

(** C2, as the code has it.  An add action is rejected, and leaves the rows
    as they are, whenever the parsed weight is not greater than 0 or the
    parsed count is not greater than 0 (NaN is not greater than 0); this
    covers the four listed calls.  Both versions of the handler agree. *)
Theorem addEntry_rejects (e : entry) (s : state) :
  ((0 <? weightOf e) = false \/ (0 <? pcsOf e) = false ->
     addEntry e s = (ValidationError, typeInputs e s) /\
     rows (snd (addEntry e s)) = rows s) /\
  (In (typedWeight e, typedPcs e) listedInvalid ->
     addEntry e s = (ValidationError, typeInputs e s) /\
     rows (snd (addEntry e s)) = rows s) /\
  handleAddRow' (uuid e) (now e) (typeInputs e s) = addEntry e s.
Proof.
  assert (Hreject : valid e = false ->
            addEntry e s = (ValidationError, typeInputs e s) /\
            rows (snd (addEntry e s)) = rows s).
  { intros Hv. rewrite addEntry_cases, Hv. split; reflexivity. }
  split; [|split].
  - intros Hnot. apply Hreject. rewrite valid_positive.
    destruct Hnot as [-> | ->]; [reflexivity | apply andb_false_r].
  - intros Hin. apply Hreject. unfold valid, weightOf, pcsOf.
    cbn in Hin.
    destruct Hin as [Hin | [Hin | [Hin | [Hin | []]]]];
      injection Hin as <- <-; vm_compute; reflexivity.
  - apply handleAddRow_versions.
Qed.

Lemma addEntry_rejects_witness :
  addEntry (mkEntry "abc" "4" "row-1" 1700000000000) initial
    = (ValidationError, mk [] "abc" "4") /\
  addEntry (mkEntry "1.5" "-3" "row-1" 1700000000000) initial
    = (ValidationError, mk [] "1.5" "-3").
Proof.
  split.
  - apply (proj1 (addEntry_rejects (mkEntry "abc" "4" "row-1" 1700000000000) initial)).
    left. vm_compute. reflexivity.
  - apply (proj1 (proj2 (addEntry_rejects (mkEntry "1.5" "-3" "row-1" 1700000000000) initial))).
    cbn. auto.
Defined.

(** C2 as stated fails: a weight typed as [Infinity], or one of 401 digits,
    is not a finite number, and the row is added; a count of 401 digits is
    not an integer, and the row is added. *)
Lemma infinite_weight_accepted :
  let e := mkEntry "Infinity" "1" "row-1" 1700000000000 in
  (weightOf e = infinity /\
   is_finite (weightOf e) = false /\
   addEntry e initial = (Added, mk [rowOf e] EmptyString EmptyString)) /\
  (weightOf hugeWeight = infinity /\
   addEntry hugeWeight initial
     = (Added, mk [rowOf hugeWeight] EmptyString EmptyString)) /\
  (pcsOf hugeCount = infinity /\
   is_finite (pcsOf hugeCount) = false /\
   addEntry hugeCount initial
     = (Added, mk [rowOf hugeCount] EmptyString EmptyString)).
Proof. vm_compute. repeat split; reflexivity. Qed.

(** C3, amended.  With no rows [handleDeleteLast] returns early and changes
    nothing.  With rows, on the web or once the user has pressed the
    destructive button of the confirmation, the row that goes is the head,
    the one added last, and the inputs are kept: after adding E1 and then E2
    only E1 is left.  Outside the web a user who cancels the confirmation
    keeps every row.  The handler hands no row back: its outcome is the
    branch taken. *)
Theorem handleDeleteLast_removes_head (os : Platform) (pressed : alert_button)
    (s : state) :
  (rows s = [] -> handleDeleteLast os pressed s = (EmptySessionError, s)) /\
  (forall head rest,
     rows s = head :: rest ->
     is_web os = true \/ pressed = Delete ->
     handleDeleteLast os pressed s
       = (Removed, mk rest (weightInput s) (pcsInput s))) /\
  (rows s <> [] -> is_web os = false -> pressed = Cancel ->
     handleDeleteLast os pressed s = (Cancelled, s)) /\
  (forall e1 e2,
     valid e1 = true -> valid e2 = true ->
     is_web os = true \/ pressed = Delete ->
     rows (addAll [e1; e2] initial) = [rowOf e2; rowOf e1] /\
     fst (handleDeleteLast os pressed (addAll [e1; e2] initial)) = Removed /\
     rows (snd (handleDeleteLast os pressed (addAll [e1; e2] initial)))
       = [rowOf e1]).
Proof.
  assert (Hhead : forall t head rest,
            rows t = head :: rest ->
            is_web os = true \/ pressed = Delete ->
            handleDeleteLast os pressed t
              = (Removed, mk rest (weightInput t) (pcsInput t))).
  { intros t head rest Hrows Hgo. unfold handleDeleteLast, setRows.
    rewrite Hrows. cbn.
    destruct Hgo as [-> | ->]; [reflexivity|].
    destruct (is_web os); reflexivity. }
  split; [|split; [|split]].
  - intros Hrows. unfold handleDeleteLast. rewrite Hrows. reflexivity.
  - apply Hhead.
  - intros Hrows Hos ->. unfold handleDeleteLast. rewrite Hos.
    destruct (rows s); [contradiction|reflexivity].
  - intros e1 e2 H1 H2 Hgo.
    assert (Hrows : rows (addAll [e1; e2] initial) = [rowOf e2; rowOf e1]).
    { rewrite rows_addAll. cbn. rewrite H1, H2. reflexivity. }
    split; [exact Hrows|].
    rewrite (Hhead _ _ _ Hrows Hgo). split; reflexivity.
Qed.

Lemma handleDeleteLast_removes_head_witness :
  handleDeleteLast android Delete (addAll [pointOne; pointTwo] initial)
    = (Removed, mk [rowOf pointOne] EmptyString EmptyString) /\
  handleDeleteLast web Cancel initial = (EmptySessionError, initial).
Proof.
  split.
  - apply (proj1 (proj2 (handleDeleteLast_removes_head android Delete
                            (addAll [pointOne; pointTwo] initial)))
             (rowOf pointTwo) [rowOf pointOne]).
    + vm_compute. reflexivity.
    + right. reflexivity.
  - apply (proj1 (handleDeleteLast_removes_head web Cancel initial)). reflexivity.
Defined.

(** C3 as stated fails.  Outside the web, with E1 and then E2 added, a user
    who cancels the confirmation keeps E2 at the head and E1 behind it:
    nothing is removed from a session that is not empty.  And what the
    handler answers is the same whichever row is at the head, so it is not
    the row removed. *)
Lemma cancelled_delete_keeps_head :
  rows (addAll [pointOne; pointTwo] initial)
    = [rowOf pointTwo; rowOf pointOne] /\
  handleDeleteLast android Cancel (addAll [pointOne; pointTwo] initial)
    = (Cancelled, addAll [pointOne; pointTwo] initial) /\
  rows (snd (handleDeleteLast ios Cancel (addAll [pointOne; pointTwo] initial)))
    = [rowOf pointTwo; rowOf pointOne] /\
  rowOf pointTwo <> rowOf pointOne /\
  fst (handleDeleteLast web Delete (addAll [pointOne; pointTwo] initial))
    = fst (handleDeleteLast web Delete (addAll [pointTwo; pointOne] initial)).
Proof.
  split; [vm_compute; reflexivity|].
  split; [vm_compute; reflexivity|].
  split; [vm_compute; reflexivity|].
  split; [|vm_compute; reflexivity].
  intros Heq. apply (f_equal MeasurementRow.id) in Heq. vm_compute in Heq.
  discriminate Heq.
Qed.

(** C4.  The average is the quotient when the total count is greater than
    0, and then the divisor is not zero; it is 0 when the total count is
    zero.  The same holds on the report screen. *)
Theorem average_guarded (rs : list MeasurementRow.t) :
  ((0 <? totalPcs rs) = true ->
     avgWeight rs = totalWeight rs / totalPcs rs /\ (totalPcs rs =? 0) = false) /\
  ((totalPcs rs =? 0) = true -> avgWeight rs = 0) /\
  ((0 <? ReportScreen.totalPcs rs) = true ->
     ReportScreen.avgWeightKg rs
       = ReportScreen.totalWeightKg rs / ReportScreen.totalPcs rs /\
     (ReportScreen.totalPcs rs =? 0) = false) /\
  ((ReportScreen.totalPcs rs =? 0) = true -> ReportScreen.avgWeightKg rs = 0).
Proof.
  unfold avgWeight, ReportScreen.avgWeightKg.
  split; [|split; [|split]].
  - intros Hpos. rewrite Hpos. split; [reflexivity|].
    apply positive_not_zero. assumption.
  - intros Hzero. rewrite (zero_not_positive _ Hzero). reflexivity.
  - intros Hpos. rewrite Hpos. split; [reflexivity|].
    apply positive_not_zero. assumption.
  - intros Hzero. rewrite (zero_not_positive _ Hzero). reflexivity.
Qed.

Lemma average_guarded_witness :
  avgWeight (rows (addAll [pointOne; pointTwo] initial))
    = 0x1.3333333333334p-2 / 2 /\
  avgWeight [] = 0.
Proof.
  split.
  - apply (proj1 (average_guarded (rows (addAll [pointOne; pointTwo] initial)))).
    vm_compute. reflexivity.
  - apply (proj1 (proj2 (average_guarded []))). vm_compute. reflexivity.
Defined.

End SessionClaims.

(** ** The report: aggregates and the record to save *)

Section Report.
Local Open Scope float_scope.

(** [round_half_up v k] is within a half of [v / 2 ^ k], and is the upper
    neighbour when [v / 2 ^ k] lies half way between two integers. *)
Lemma round_half_up_nearest (v : Z) (k : positive) :
  (2 * v - 2 ^ Z.pos k < 2 * JS.round_half_up v (Z.pos k) * 2 ^ Z.pos k
     <= 2 * v + 2 ^ Z.pos k)%Z.
Proof.
  unfold JS.round_half_up.
  assert (Hpow : (0 < 2 ^ Z.pos k)%Z) by (apply Z.pow_pos_nonneg; lia).
  rewrite Z.pow_add_r, Z.pow_1_r by lia.
  pose proof (Z.mul_div_le (2 * v + 2 ^ Z.pos k) (2 ^ Z.pos k * 2) ltac:(lia)).
  pose proof (Z.mul_succ_div_gt (2 * v + 2 ^ Z.pos k) (2 ^ Z.pos k * 2) ltac:(lia)).
  lia.
Qed.

(** [Math.round] on a double with a fraction part. *)
Lemma Math_round_fraction (x : JS.number) (s : bool) (m p : positive) :
  Prim2SF x = S754_finite s m (Z.neg p) ->
  let n := JS.round_half_up (if s then Z.neg m else Z.pos m) (Z.pos p) in
  JS.Math_round x = if (n =? 0)%Z then JS.signed_zero s else JS.number_of_Z n.
Proof. intros Hx. unfold JS.Math_round. rewrite Hx. reflexivity. Qed.

(** C5.  The record of [handleSave] holds the sums over the rows (each
    accumulated in double precision from 0 in the order of the rows), the
    guarded quotient, the gram fields obtained by multiplying by 1000 and
    rounding to the nearest integer with [Math.round], and the rows as they
    are.  In the scenario of the specification the fields are 20.75, 16,
    1.296875, 20750 and 1297; without rows they are 0, 0, 0 and no rows. *)
Theorem sale_aggregates (rows : list MeasurementRow.t) (now : JS.number)
    (uuid : string) :
  let s := ReportScreen.sale rows now uuid in
  (SaleRecord.totalWeightKg s = accumulate (map MeasurementRow.weightKg rows) /\
   SaleRecord.totalPcs s = accumulate (map MeasurementRow.pcs rows) /\
   SaleRecord.averageWeightKg s =
     (if 0 <? SaleRecord.totalPcs s
      then SaleRecord.totalWeightKg s / SaleRecord.totalPcs s else 0) /\
   SaleRecord.totalWeightGrams s = JS.Math_round (SaleRecord.totalWeightKg s * 1000) /\
   SaleRecord.averageWeightGrams s = JS.Math_round (SaleRecord.averageWeightKg s * 1000) /\
   SaleRecord.rows s = rows /\
   SaleRecord.createdAt s = now) /\
  (forall (x : JS.number) (sign : bool) (m p : positive),
     Prim2SF x = S754_finite sign m (Z.neg p) ->
     let v := if sign then Z.neg m else Z.pos m in
     let n := JS.round_half_up v (Z.pos p) in
     JS.Math_round x = (if (n =? 0)%Z then JS.signed_zero sign else JS.number_of_Z n) /\
     (2 * v - 2 ^ Z.pos p < 2 * n * 2 ^ Z.pos p <= 2 * v + 2 ^ Z.pos p)%Z) /\
  (let s := ReportScreen.sale scenarioRows now uuid in
   SaleRecord.totalWeightKg s = 20.75 /\
   SaleRecord.totalPcs s = 16 /\
   SaleRecord.averageWeightKg s = 1.296875 /\
   SaleRecord.totalWeightGrams s = 20750 /\
   SaleRecord.averageWeightGrams s = 1297 /\
   map MeasurementRow.weightKg (SaleRecord.rows s) = [8.25; 12.5] /\
   map MeasurementRow.pcs (SaleRecord.rows s) = [6; 10]) /\
  (let s := ReportScreen.sale [] now uuid in
   SaleRecord.totalWeightKg s = 0 /\
   SaleRecord.totalPcs s = 0 /\
   SaleRecord.averageWeightKg s = 0 /\
   SaleRecord.rows s = []).
Proof.
  cbn zeta. split; [|split; [|split]].
  - cbn [ReportScreen.sale SaleRecord.totalWeightKg SaleRecord.totalPcs
         SaleRecord.averageWeightKg SaleRecord.totalWeightGrams
         SaleRecord.averageWeightGrams SaleRecord.rows SaleRecord.createdAt].
    repeat split.
    + apply totalWeight_accumulate.
    + apply totalPcs_accumulate.
  - intros x sign m p Hx. split.
    + apply Math_round_fraction. assumption.
    + apply round_half_up_nearest.
  - vm_compute. repeat split; reflexivity.
  - vm_compute. repeat split; reflexivity.
Qed.

Lemma sale_aggregates_witness :
  JS.Math_round 1296.875 = JS.number_of_Z 1297.
Proof.
  apply (proj1 (proj1 (proj2 (sale_aggregates [] 0 EmptyString))
                  1296.875 false 5703716569088000%positive 42%positive
                  ltac:(vm_compute; reflexivity))).
Defined.

(** C6, as the code has it.  Two records built from the same rows at the
    same time agree in every field except [id], which is whatever
    [Crypto.randomUUID()] returned; with the same identifier they are
    equal.  Building the record touches no storage: [handleSave] does
    what [saveSale] does on the record built. *)
Theorem sale_deterministic_up_to_id (rows : list MeasurementRow.t)
    (now : JS.number) (uuid1 uuid2 : string) :
  let s1 := ReportScreen.sale rows now uuid1 in
  let s2 := ReportScreen.sale rows now uuid2 in
  s2 = SaleRecord.mk uuid2
         (SaleRecord.totalWeightKg s1) (SaleRecord.totalWeightGrams s1)
         (SaleRecord.totalPcs s1) (SaleRecord.averageWeightKg s1)
         (SaleRecord.averageWeightGrams s1) (SaleRecord.rows s1)
         (SaleRecord.createdAt s1) /\
  (uuid1 = uuid2 -> s1 = s2) /\
  (forall (codec : JSON.codec) (st : AsyncStorage.t),
     handleSave rows now uuid1 st = saveSale s1 st).
Proof.
  cbn zeta. split; [reflexivity|]. split; [|reflexivity].
  intros ->. reflexivity.
Qed.

Lemma sale_deterministic_up_to_id_witness :
  ReportScreen.sale scenarioRows 1700000000000 "sale-1"
    = ReportScreen.sale scenarioRows 1700000000000 "sale-1".
Proof.
  apply (proj1 (proj2 (sale_deterministic_up_to_id scenarioRows 1700000000000
                         "sale-1" "sale-1"))).
  reflexivity.
Defined.

(** C6 as stated fails: the same rows and the same time give records that
    differ, in their [id], as soon as the generated identifiers differ. *)
Lemma sale_id_differs :
  ReportScreen.sale scenarioRows 1700000000000 "sale-1"
    <> ReportScreen.sale scenarioRows 1700000000000 "sale-2".
Proof. intros Heq. apply (f_equal SaleRecord.id) in Heq. discriminate. Qed.

End Report.

(** ** The sale history *)

Section History.
Context `{JSON.codec}.

(** Reading never writes. *)
Lemma loadSales_store (st : AsyncStorage.t) : snd (loadSales st) = st.
Proof.
  unfold loadSales, await, getItem, parseSales.
  destruct (AsyncStorage.getItem _ _) as [text|]; [|reflexivity].
  destruct (String.eqb text EmptyString); [reflexivity|].
  destruct (JSON.parse text); reflexivity.
Qed.

Lemma loadSales_settled (st : AsyncStorage.t) :
  loadSales st = (fst (loadSales st), st).
Proof. rewrite <- (loadSales_store st) at 3. apply surjective_pairing. Qed.

(** What was written is what is read, for a collection that survives. *)
Lemma loadSales_written (sales : list SaleRecord.t) (st : AsyncStorage.t) :
  survives sales ->
  loadSales (<[SALES_KEY := JSON.stringify sales]> st)
    = (Fulfilled sales, <[SALES_KEY := JSON.stringify sales]> st).
Proof.
  intros [Hne Hparse].
  unfold loadSales, await, getItem, AsyncStorage.getItem.
  rewrite lookup_insert_eq.
  destruct (String.eqb_spec (JSON.stringify sales) EmptyString) as [Heq|_];
    [contradiction|].
  unfold parseSales. rewrite Hparse. reflexivity.
Qed.

Lemma saveSale_written (sale : SaleRecord.t) (history : list SaleRecord.t)
    (st : AsyncStorage.t) :
  fst (loadSales st) = Fulfilled history ->
  saveSale sale st
    = (Fulfilled tt, <[SALES_KEY := JSON.stringify (sale :: history)]> st).
Proof.
  intros Hload. unfold saveSale, await.
  rewrite (loadSales_settled st), Hload. reflexivity.
Qed.

Lemma deleteSale_written (id : string) (history : list SaleRecord.t)
    (st : AsyncStorage.t) :
  fst (loadSales st) = Fulfilled history ->
  deleteSale id st
    = (Fulfilled tt,
       <[SALES_KEY :=
           JSON.stringify (filter (fun s => SaleRecord.id s <> id) history)]> st).
Proof.
  intros Hload. unfold deleteSale, await.
  rewrite (loadSales_settled st), Hload. reflexivity.
Qed.

Lemma filter_absent (id : string) (history : list SaleRecord.t) :
  (forall s, s ∈ history -> SaleRecord.id s <> id) ->
  filter (fun s => SaleRecord.id s <> id) history = history.
Proof.
  induction history as [|s history IH]; intros Habsent; [reflexivity|].
  rewrite filter_cons_True by (apply Habsent; left).
  rewrite IH; [reflexivity|].
  intros s' Hin. apply Habsent. right. assumption.
Qed.

(** C7, as the code has it.  When the store reads as [history] and the
    collections written survive storage, saving a sale and listing gives the
    sale first, in front of [history]; deleting its identifier and listing
    gives a collection without that identifier; and deleting an identifier
    that no sale has succeeds and leaves the listing as it was. *)
Theorem save_list_delete (st : AsyncStorage.t) (history : list SaleRecord.t)
    (sale : SaleRecord.t) :
  fst (loadSales st) = Fulfilled history ->
  survives (sale :: history) ->
  survives (filter (fun s => SaleRecord.id s <> SaleRecord.id sale) (sale :: history)) ->
  let st1 := snd (saveSale sale st) in
  let st2 := snd (deleteSale (SaleRecord.id sale) st1) in
  fst (saveSale sale st) = Fulfilled tt /\
  fst (loadSales st1) = Fulfilled (sale :: history) /\
  fst (deleteSale (SaleRecord.id sale) st1) = Fulfilled tt /\
  (exists remaining,
     fst (loadSales st2) = Fulfilled remaining /\
     forall s, s ∈ remaining -> SaleRecord.id s <> SaleRecord.id sale) /\
  (forall id,
     (forall s, s ∈ history -> SaleRecord.id s <> id) ->
     survives history ->
     fst (deleteSale id st) = Fulfilled tt /\
     fst (loadSales (snd (deleteSale id st))) = Fulfilled history).
Proof.
  intros Hload Hsaved Hdeleted st1 st2. subst st1 st2.
  rewrite (saveSale_written sale history st Hload). cbn [fst snd].
  pose proof (loadSales_written _ st Hsaved) as Hload1.
  rewrite Hload1.
  rewrite (deleteSale_written (SaleRecord.id sale) (sale :: history) _
             ltac:(rewrite Hload1; reflexivity)).
  cbn [fst snd]. repeat split.
  - eexists. split.
    + rewrite (loadSales_written _ _ Hdeleted). reflexivity.
    + intros s Hin. apply list_elem_of_filter in Hin. tauto.
  - rewrite (deleteSale_written id history st Hload). reflexivity.
  - rewrite (deleteSale_written id history st Hload). cbn [snd].
    rewrite (filter_absent id history) by assumption.
    rewrite loadSales_written by assumption. reflexivity.
Qed.

(** C8.  On a store that holds nothing under the key, [loadSales] is
    fulfilled with the empty array; and whatever the store holds, reading
    leaves it as it is. *)
Theorem loadSales_never_written (st : AsyncStorage.t) :
  (st !! SALES_KEY = None -> loadSales st = (Fulfilled [], st)) /\
  snd (loadSales st) = st.
Proof.
  split; [|apply loadSales_store].
  intros Hnone. unfold loadSales, await, getItem, AsyncStorage.getItem.
  rewrite Hnone. reflexivity.
Qed.

(** C9, as the code has it.  When the item is a non-empty text that
    [JSON.parse] rejects, [loadSales] is rejected with the SyntaxError, and
    so are [saveSale] and [deleteSale], which leave the store as it is; only
    an absent item and the empty text read as the empty collection. *)
Theorem loadSales_malformed (st : AsyncStorage.t) (text : string) :
  st !! SALES_KEY = Some text ->
  (text <> EmptyString -> JSON.parse text = JSON.Throws ->
     loadSales st = (Rejected SyntaxError, st) /\
     (forall sale, saveSale sale st = (Rejected SyntaxError, st)) /\
     (forall id, deleteSale id st = (Rejected SyntaxError, st))) /\
  (text = EmptyString -> loadSales st = (Fulfilled [], st)).
Proof.
  intros Hitem.
  assert (Hget : getItem SALES_KEY st = (Fulfilled (Some text), st)).
  { unfold getItem, AsyncStorage.getItem. rewrite Hitem. reflexivity. }
  split.
  - intros Hne Hthrows.
    assert (Hload : loadSales st = (Rejected SyntaxError, st)).
    { unfold loadSales, await. rewrite Hget.
      destruct (String.eqb_spec text EmptyString) as [Heq|_]; [contradiction|].
      unfold parseSales. rewrite Hthrows. reflexivity. }
    split; [exact Hload|]. split; intros x.
    + unfold saveSale, await. rewrite Hload. reflexivity.
    + unfold deleteSale, await. rewrite Hload. reflexivity.
  - intros ->. unfold loadSales, await. rewrite Hget. reflexivity.
Qed.

(** C10.  When the store reads as [history], [deleteSale id] writes back
    the sales of [history] whose identifier is not [id]: every sale with
    that identifier is gone, every other sale is kept, in the order it had,
    and no other item of the store changes. *)
Theorem deleteSale_filters (st : AsyncStorage.t) (history : list SaleRecord.t)
    (id : string) :
  fst (loadSales st) = Fulfilled history ->
  let kept := filter (fun s => SaleRecord.id s <> id) history in
  deleteSale id st = (Fulfilled tt, <[SALES_KEY := JSON.stringify kept]> st) /\
  (forall s, s ∈ kept <-> s ∈ history /\ SaleRecord.id s <> id) /\
  kept `sublist_of` history /\
  (forall key, key <> SALES_KEY -> snd (deleteSale id st) !! key = st !! key).
Proof.
  intros Hload kept. subst kept.
  rewrite (deleteSale_written id history st Hload).
  split; [reflexivity|]. split; [|split].
  - intros s. rewrite list_elem_of_filter. tauto.
  - apply sublist_filter.
  - intros key Hkey. cbn [snd]. apply lookup_insert_ne. congruence.
Qed.

End History.

(** ** The history on stores written as JSON text *)

Section HistoryOnText.
#[local] Existing Instance JSONText.reference.

Lemma sampleStore_reads :
  fst (loadSales sampleStore) = Fulfilled [olderSale].
Proof. vm_compute. reflexivity. Qed.

Lemma save_list_delete_witness :
  fst (loadSales (snd (saveSale scenarioSale sampleStore)))
    = Fulfilled [scenarioSale; olderSale].
Proof.
  apply (proj1 (proj2 (@save_list_delete JSONText.reference sampleStore [olderSale] scenarioSale
                         sampleStore_reads
                         ltac:(split; [discriminate | vm_compute; reflexivity])
                         ltac:(split; [discriminate | vm_compute; reflexivity])))).
Defined.

(** C7 as stated fails: two weighings of [10 ^ 308] kg make a sale whose total
    weight is infinite; [JSON.stringify] writes that number as [null], and
    what is listed after saving is not a collection that starts with the
    sale. *)
Lemma overflowed_sale_not_listed :
  forallb is_finite (map MeasurementRow.weightKg heavyRows) = true /\
  SaleRecord.totalWeightKg heavySale = infinity /\
  JSONText.writeNumber (SaleRecord.totalWeightKg heavySale) = "null"%string /\
  fst (loadSales ∅) = Fulfilled [] /\
  fst (saveSale heavySale ∅) = Fulfilled tt /\
  fst (loadSales (snd (saveSale heavySale ∅))) = Untyped /\
  (forall rest,
     fst (loadSales (snd (saveSale heavySale ∅))) <> Fulfilled (heavySale :: rest)).
Proof.
  assert (Hlisted : fst (loadSales (snd (saveSale heavySale ∅))) = Untyped)
    by (vm_compute; reflexivity).
  repeat split; try (vm_compute; reflexivity).
  intros rest. rewrite Hlisted. discriminate.
Qed.

Lemma loadSales_never_written_witness :
  loadSales (<["theme" := "dark"]> ∅) = (Fulfilled [], <["theme" := "dark"]> ∅).
Proof.
  apply (proj1 (@loadSales_never_written JSONText.reference (<["theme" := "dark"]> ∅))).
  vm_compute. reflexivity.
Defined.

Lemma loadSales_malformed_witness :
  loadSales corruptStore = (Rejected SyntaxError, corruptStore).
Proof.
  apply (proj1 (proj1 (@loadSales_malformed JSONText.reference corruptStore "[{oops"
                         ltac:(vm_compute; reflexivity))
                  ltac:(discriminate) ltac:(vm_compute; reflexivity))).
Defined.

(** C9 as stated fails: the item [[{oops] is not JSON, and reading
    the store is rejected instead of giving the empty collection. *)
Lemma corrupt_store_rejected :
  corruptStore !! SALES_KEY = Some "[{oops"%string /\
  JSON.parse "[{oops" = JSON.Throws /\
  loadSales corruptStore = (Rejected SyntaxError, corruptStore) /\
  fst (loadSales corruptStore) <> Fulfilled [].
Proof.
  split; [vm_compute; reflexivity|]. split; [vm_compute; reflexivity|].
  assert (Hload : loadSales corruptStore = (Rejected SyntaxError, corruptStore))
    by (vm_compute; reflexivity).
  split; [exact Hload|]. rewrite Hload. discriminate.
Qed.

Lemma deleteSale_filters_witness :
  deleteSale "sale-0" sampleStore
    = (Fulfilled tt,
       <[SALES_KEY :=
           JSON.stringify
             (filter (fun s => SaleRecord.id s <> "sale-0"%string) [olderSale])]>
         sampleStore).
Proof.
  apply (proj1 (@deleteSale_filters JSONText.reference sampleStore [olderSale] "sale-0"
                  sampleStore_reads)).
Defined.

End HistoryOnText.

(** ** The session under any sequence of actions *)

Section SessionActions.
Import MeasurementScreen Measurement.
Local Open Scope float_scope.

Lemma positive_not_nan (x : JS.number) : (0 <? x) = true -> JS.isNaN x = false.
Proof.
  intros Hpos. pose proof (not_positive x) as Hnot. rewrite Hpos in Hnot.
  cbn in Hnot. apply orb_false_iff in Hnot. tauto.
Qed.

Lemma handleAddRow_positive (uuid : string) (now : JS.number) (s : state) :
  fst (handleAddRow uuid now s) = Added <->
  (0 <? JS.parseFloat (weightInput s)) = true /\
  (0 <? JS.parseInt (pcsInput s) 10) = true.
Proof.
  unfold handleAddRow, invalidWeight, invalidPcs. rewrite !not_positive.
  destruct (0 <? JS.parseFloat _); cbn.
  - destruct (0 <? JS.parseInt _ _); cbn; split; intros Hadded;
      try tauto; try discriminate.
    destruct Hadded; discriminate.
  - split; [discriminate|]. intros [? _]; discriminate.
Qed.

Lemma canAdd_positive (s : state) :
  canAdd s = true <->
  (0 <? JS.parseFloat (weightInput s)) = true /\
  (0 <? JS.parseInt (pcsInput s) 10) = true.
Proof.
  unfold canAdd. split.
  - intros Hcan. repeat (apply andb_true_iff in Hcan; destruct Hcan as [Hcan ?]).
    split; assumption.
  - intros [Hw Hp].
    rewrite Hw, Hp, (positive_not_nan _ Hw), (positive_not_nan _ Hp).
    destruct (weightInput s) as [|a w]; [vm_compute in Hw; discriminate|].
    destruct (pcsInput s) as [|b p]; [vm_compute in Hp; discriminate|].
    reflexivity.
Qed.

(** The add button is enabled exactly when pressing it adds a row: the
    tests of [canAdd] on the lengths of the inputs and on [NaN] change
    nothing, the comparisons with 0 decide. *)
Theorem canAdd_enables_add (uuid : string) (now : JS.number) (s : state) :
  (canAdd s = true <-> fst (handleAddRow' uuid now s) = Added) /\
  (canAdd s = false <-> handleAddRow' uuid now s = (ValidationError, s)).
Proof.
  assert (Hiff : canAdd s = true <-> fst (handleAddRow' uuid now s) = Added).
  { rewrite handleAddRow_versions, handleAddRow_positive. apply canAdd_positive. }
  split; [exact Hiff|].
  rewrite handleAddRow_versions in *.
  unfold handleAddRow in *.
  destruct (invalidWeight _); [|destruct (invalidPcs _)]; cbn [fst] in *;
    destruct (canAdd s); split; intros Hcase; try reflexivity;
    try discriminate; exfalso;
    try (assert (ValidationError = Added) by (apply Hiff; reflexivity);
         discriminate);
    try (assert (true = false) by (symmetry; apply Hiff; reflexivity);
         discriminate);
    try (assert (false = true) by (apply Hiff; reflexivity); discriminate).
Qed.

Lemma stale_inputs (s t : state) :
  weightInput t = weightInput s -> pcsInput t = pcsInput s -> stale s -> stale t.
Proof.
  intros Hw Hp Hs uuid now. specialize (Hs uuid now).
  unfold handleAddRow in *. rewrite Hw, Hp.
  destruct (invalidWeight _); [reflexivity|].
  destruct (invalidPcs _); [reflexivity|discriminate].
Qed.

Lemma stale_initial : stale initial.
Proof. intros uuid now. reflexivity. Qed.

Lemma stale_step (a : action) (s : state) : stale s -> stale (step a s).
Proof.
  intros Hs. destruct a as [e|uuid now|os pressed]; cbn [step].
  - rewrite addEntry_cases. destruct (valid e) eqn:Hvalid; cbn [snd].
    + intros uuid now. reflexivity.
    + intros uuid now. unfold handleAddRow, typeInputs; cbn.
      unfold valid, weightOf, pcsOf in Hvalid.
      destruct (invalidWeight _); [reflexivity|].
      destruct (invalidPcs _); [reflexivity|discriminate].
  - rewrite Hs. exact Hs.
  - unfold handleDeleteLast, setRows.
    destruct (length (rows s) =? 0)%nat; [exact Hs|].
    destruct (is_web os); cbn [snd];
      [eapply stale_inputs; [| |exact Hs]; reflexivity|].
    destruct pressed; cbn [snd];
      [exact Hs|eapply stale_inputs; [| |exact Hs]; reflexivity].
Qed.

Lemma run_cons (a : action) (actions : list action) (s : state) :
  run (a :: actions) s = run actions (step a s).
Proof. reflexivity. Qed.

Lemma stale_run (actions : list action) (s : state) :
  stale s -> stale (run actions s).
Proof.
  revert s. induction actions as [|a actions IH]; intros s Hs; [exact Hs|].
  rewrite run_cons. apply IH, stale_step, Hs.
Qed.

(** Pressing the add button again without typing never adds a row,
    whatever was done on the screen before: the press is refused, the state
    is kept, and the button is disabled. *)
Theorem press_again_rejected (actions : list action) (uuid : string)
    (now : JS.number) :
  handleAddRow uuid now (run actions initial)
    = (ValidationError, run actions initial) /\
  canAdd (run actions initial) = false.
Proof.
  assert (Hs : stale (run actions initial)) by apply stale_run, stale_initial.
  split; [apply Hs|].
  destruct (canAdd _) eqn:Hcan; [|reflexivity].
  apply canAdd_positive, (handleAddRow_positive uuid now) in Hcan.
  rewrite Hs in Hcan. discriminate.
Qed.

Lemma rows_step (a : action) (s : state) :
  stale s ->
  rows (step a s) =
    match a with
    | Add e => if valid e then rowOf e :: rows s else rows s
    | PressAdd _ _ => rows s
    | DeleteLast os pressed =>
        if is_web os then slice 1 (rows s)
        else match pressed with Delete => slice 1 (rows s) | Cancel => rows s end
    end.
Proof.
  intros Hs. destruct a as [e|uuid now|os pressed]; cbn [step].
  - rewrite addEntry_cases. destruct (valid e); reflexivity.
  - rewrite Hs. reflexivity.
  - unfold handleDeleteLast, setRows.
    destruct (rows s) as [|r rs] eqn:Hrows; cbn.
    + rewrite Hrows. destruct (is_web os); [reflexivity|].
      destruct pressed; reflexivity.
    + destruct (is_web os); [reflexivity|]. destruct pressed; [|reflexivity].
      cbn. exact Hrows.
Qed.

Lemma typed_cons (a : action) (actions : list action) :
  typed (a :: actions)
    = match a with Add e => e :: typed actions | _ => typed actions end.
Proof. destruct a; reflexivity. Qed.

(** The rows after a sequence of actions are among the accepted rows,
    newest first, in front of the rows there were. *)
Lemma rows_run_sublist (actions : list action) (s : state) :
  stale s ->
  rows (run actions s)
    `sublist_of` rev (map rowOf (List.filter valid (typed actions))) ++ rows s.
Proof.
  revert s. induction actions as [|a actions IH]; intros s Hs; [reflexivity|].
  rewrite run_cons. etransitivity; [apply IH, stale_step, Hs|].
  rewrite (rows_step a s Hs), typed_cons.
  assert (Htail : slice 1 (rows s) `sublist_of` rows s) by apply sublist_drop.
  destruct a as [e|uuid now|os pressed].
  - cbn [List.filter]. destruct (valid e); [|reflexivity].
    cbn [map rev]. rewrite <- app_assoc. reflexivity.
  - reflexivity.
  - apply sublist_app; [reflexivity|].
    destruct (is_web os); [exact Htail|].
    destruct pressed; [reflexivity|exact Htail].
Qed.

Lemma rows_run_initial (actions : list action) :
  rows (run actions initial)
    `sublist_of` rev (map rowOf (List.filter valid (typed actions))).
Proof.
  pose proof (rows_run_sublist actions initial stale_initial) as Hsub.
  cbn [rows initial] in Hsub. rewrite app_nil_r in Hsub. exact Hsub.
Qed.

Lemma forallb_sublist {A} (p : A -> bool) (l k : list A) :
  l `sublist_of` k -> forallb p k = true -> forallb p l = true.
Proof.
  induction 1 as [|x l k _ IH|x l k _ IH]; cbn [forallb]; [reflexivity| |].
  - intros [Hx Hk]%andb_prop. rewrite Hx. apply IH, Hk.
  - intros [_ Hk]%andb_prop. apply IH, Hk.
Qed.

Lemma forallb_rev {A} (p : A -> bool) (l : list A) :
  forallb p (rev l) = forallb p l.
Proof.
  induction l as [|x l IH]; [reflexivity|].
  cbn [rev forallb]. rewrite forallb_app, IH. cbn [forallb].
  rewrite andb_true_r. apply andb_comm.
Qed.

(** Every row of a session has a weight and a count greater than 0,
    whatever sequence of adds, repeated presses, removals and cancelled
    removals led to it. *)
Theorem session_rows_positive (actions : list action) :
  forallb positiveRow (rows (run actions initial)) = true.
Proof.
  eapply forallb_sublist; [apply rows_run_initial|].
  rewrite forallb_rev.
  induction (typed actions) as [|e es IH]; [reflexivity|].
  cbn [List.filter]. destruct (valid e) eqn:Hv; [|exact IH].
  cbn [map forallb]. rewrite IH, andb_true_r.
  rewrite valid_positive in Hv. exact Hv.
Qed.

(** The rows of a session are rows that were typed and accepted, newest
    first: none is invented, altered, duplicated or moved.  So when the
    identifiers drawn are distinct, the rows of the list have distinct
    keys. *)
Theorem session_rows_sublist (actions : list action) :
  rows (run actions initial)
    `sublist_of` rev (map rowOf (List.filter valid (typed actions))) /\
  (NoDup (map uuid (typed actions)) ->
   NoDup (map MeasurementRow.id (rows (run actions initial)))).
Proof.
  pose proof (rows_run_initial actions) as Hsub.
  split; [exact Hsub|]. intros Hnodup.
  eapply sublist_NoDup; [|apply (fmap_sublist MeasurementRow.id), Hsub].
  change (NoDup (map MeasurementRow.id
                   (rev (map rowOf (List.filter valid (typed actions)))))).
  rewrite map_rev, map_map. cbn [rowOf MeasurementRow.id].
  rewrite <- Permutation_rev.
  eapply sublist_NoDup; [exact Hnodup|].
  apply (fmap_sublist uuid).
  clear. induction (typed actions) as [|e es IH]; [constructor|].
  cbn. destruct (valid e); [apply sublist_skip, IH|apply sublist_cons, IH].
Qed.

Lemma session_rows_sublist_witness :
  NoDup (map MeasurementRow.id
           (rows (run [Add pointOne; DeleteLast web Cancel; Add pointTwo]
                      initial))).
Proof.
  apply (proj2 (session_rows_sublist
                  [Add pointOne; DeleteLast web Cancel; Add pointTwo])).
  apply (bool_decide_unpack _). vm_compute. exact I.
Defined.

(** Undo: removing the last row right after an accepted add gives back
    the rows, and with them the totals and the average, that were there
    before the add. *)
Theorem add_then_delete_restores (e : entry) (os : Platform)
    (pressed : alert_button) (s : state) :
  valid e = true ->
  is_web os = true \/ pressed = Delete ->
  let s' := snd (handleDeleteLast os pressed (snd (addEntry e s))) in
  rows s' = rows s /\
  totalWeight (rows s') = totalWeight (rows s) /\
  totalPcs (rows s') = totalPcs (rows s) /\
  avgWeight (rows s') = avgWeight (rows s).
Proof.
  intros Hv Hgo. cbn zeta.
  assert (Hrows : rows (snd (handleDeleteLast os pressed (snd (addEntry e s))))
                  = rows s).
  { rewrite addEntry_cases, Hv. cbn [snd]. unfold handleDeleteLast, setRows.
    cbn. destruct Hgo as [-> | ->]; [reflexivity|].
    destruct (is_web os); reflexivity. }
  rewrite Hrows. repeat split; reflexivity.
Qed.

Lemma add_then_delete_restores_witness :
  rows (snd (handleDeleteLast android Delete
               (snd (addEntry pointTwo (addAll [pointOne] initial)))))
    = rows (addAll [pointOne] initial).
Proof.
  apply (proj1 (add_then_delete_restores pointTwo android Delete
                  (addAll [pointOne] initial)
                  ltac:(vm_compute; reflexivity)
                  (or_intror eq_refl))).
Defined.

Lemma integerSum_cons (x : JS.number) (xs : list JS.number) :
  integerSum (x :: xs)
    = match integerValue x with
      | Some n => (n + integerSum xs)%Z
      | None => integerSum xs
      end.
Proof. reflexivity. Qed.

Lemma integerSum_app (xs ys : list JS.number) :
  integerSum (xs ++ ys) = (integerSum xs + integerSum ys)%Z.
Proof.
  induction xs as [|x xs IH]; [reflexivity|].
  cbn [app]. rewrite !integerSum_cons, IH.
  destruct (integerValue x); lia.
Qed.

Lemma integerSum_rev (xs : list JS.number) : integerSum (rev xs) = integerSum xs.
Proof.
  induction xs as [|x xs IH]; [reflexivity|].
  cbn [rev]. rewrite integerSum_app, IH, !integerSum_cons.
  change (integerSum []) with 0%Z. destruct (integerValue x); lia.
Qed.

Lemma integerSum_sublist (xs ys : list JS.number) :
  xs `sublist_of` ys ->
  forallb isPositiveInteger ys = true ->
  (integerSum xs <= integerSum ys)%Z.
Proof.
  induction 1 as [|x xs ys _ IH|x xs ys _ IH]; cbn [forallb]; [lia| |];
    intros [Hx Hys]%andb_prop; specialize (IH Hys);
    rewrite ?integerSum_cons.
  - destruct (integerValue x); lia.
  - unfold isPositiveInteger in Hx. destruct (integerValue x); [|discriminate].
    apply Z.ltb_lt in Hx. lia.
Qed.

Lemma integerSum_positive (xs : list JS.number) :
  xs <> [] -> forallb isPositiveInteger xs = true -> (0 < integerSum xs)%Z.
Proof.
  destruct xs as [|x xs]; [contradiction|]. intros _. cbn [forallb].
  intros [Hx Hxs]%andb_prop. pose proof (integerSum_nonneg xs Hxs).
  rewrite integerSum_cons. unfold isPositiveInteger in Hx.
  destruct (integerValue x); [|discriminate]. apply Z.ltb_lt in Hx. lia.
Qed.

Lemma positive_integer_positive (x : JS.number) (n : Z) :
  integerValue x = Some n -> (0 < n)%Z -> (0 <? x) = true.
Proof.
  unfold integerValue. intros Hx Hn.
  rewrite FloatAxioms.ltb_spec, Prim2SF_zero.
  destruct (Prim2SF x) as [s | s | | s m e]; try discriminate.
  - cbn in Hx. injection Hx as <-. lia.
  - pose proof (integerOf_sign _ _ _ _ Hx ltac:(lia)) as ->. reflexivity.
Qed.

(** In a session reached by any sequence of actions whose accepted counts
    are positive integers with a sum below [2 ^ 53], the total count is
    exactly the sum of the counts of the rows that are left; and as soon as
    a row is left the total count is greater than 0, so the average shown
    is the quotient and never the fallback 0. *)
Theorem reachable_average_is_quotient (actions : list action) :
  forallb isPositiveInteger
    (map pcsOf (List.filter valid (typed actions))) = true ->
  (integerSum (map pcsOf (List.filter valid (typed actions))) < 2 ^ 53)%Z ->
  let rs := rows (run actions initial) in
  integerValue (totalPcs rs) = Some (integerSum (map MeasurementRow.pcs rs)) /\
  (rs <> [] ->
   (0 <? totalPcs rs) = true /\
   avgWeight rs = totalWeight rs / totalPcs rs).
Proof.
  intros Hint Hsum rs. subst rs.
  pose proof (rows_run_initial actions) as Hsub.
  apply (fmap_sublist MeasurementRow.pcs) in Hsub.
  change (map MeasurementRow.pcs (rows (run actions initial))
            `sublist_of`
          map MeasurementRow.pcs
            (rev (map rowOf (List.filter valid (typed actions))))) in Hsub.
  rewrite map_rev, map_map in Hsub.
  change (map (fun x => MeasurementRow.pcs (rowOf x))) with (map pcsOf) in Hsub.
  set (ps := map MeasurementRow.pcs (rows (run actions initial))) in *.
  assert (Hps : forallb isPositiveInteger ps = true).
  { eapply forallb_sublist; [exact Hsub|]. rewrite forallb_rev. exact Hint. }
  assert (Hbound : (integerSum ps < 2 ^ 53)%Z).
  { eapply Z.le_lt_trans; [|exact Hsum].
    rewrite <- (integerSum_rev (map pcsOf _)).
    apply integerSum_sublist; [exact Hsub|].
    rewrite forallb_rev. exact Hint. }
  assert (Htotal : integerValue (totalPcs (rows (run actions initial)))
                   = Some (integerSum ps)).
  { rewrite totalPcs_accumulate. fold ps.
    rewrite <- (rev_involutive ps), integerSum_rev.
    apply accumulate_integers.
    - rewrite forallb_rev. exact Hps.
    - rewrite integerSum_rev. exact Hbound. }
  split; [exact Htotal|]. intros Hrows.
  assert (Hpos : (0 <? totalPcs (rows (run actions initial))) = true).
  { apply (positive_integer_positive _ _ Htotal).
    apply integerSum_positive; [|exact Hps].
    subst ps. destruct (rows (run actions initial)); [contradiction|discriminate]. }
  split; [exact Hpos|]. unfold avgWeight. rewrite Hpos. reflexivity.
Qed.

Lemma reachable_average_is_quotient_witness :
  (0 <? totalPcs
          (rows (run [Add firstWeighing; Add secondWeighing;
                      DeleteLast web Cancel] initial))) = true.
Proof.
  apply (proj2 (reachable_average_is_quotient
                  [Add firstWeighing; Add secondWeighing; DeleteLast web Cancel]
                  ltac:(vm_compute; reflexivity)
                  ltac:(vm_compute; reflexivity))).
  vm_compute. discriminate.
Defined.

(** Rows are numbered in the order they were weighed: after a sequence of
    accepted adds on an empty session, the row of the weighing at position
    [k] (from 0) carries the number [k + 1], and the newest row, at the
    head, carries the number of rows. *)
Theorem rows_numbered_in_order (es : list entry) (k : nat) (e : entry) :
  forallb valid es = true ->
  es !! k = Some e ->
  let rs := rows (addAll es initial) in
  rs !! (length es - S k)%nat = Some (rowOf e) /\
  rowNumber rs (length es - S k) = (Z.of_nat k + 1)%Z /\
  rowNumber rs 0 = Z.of_nat (length es).
Proof.
  intros Hvalid Hk rs. subst rs.
  assert (Hrows : rows (addAll es initial) = rev (map rowOf es)).
  { rewrite rows_addAll, filter_all by assumption. apply app_nil_r. }
  pose proof (lookup_lt_Some _ _ _ Hk) as Hlt.
  rewrite Hrows. unfold rowNumber. rewrite length_rev, length_map.
  split; [|lia].
  rewrite rev_alt. change (rev_append (map rowOf es) []) with (reverse (map rowOf es)).
  rewrite reverse_lookup by (rewrite length_map; lia).
  rewrite length_map.
  replace (length es - S (length es - S k))%nat with k by lia.
  change (map rowOf es) with (rowOf <$> es).
  rewrite list_lookup_fmap, Hk. reflexivity.
Qed.

Lemma rows_numbered_in_order_witness :
  rowNumber (rows (addAll [pointOne; pointTwo] initial)) 1 = 1%Z.
Proof.
  apply (proj1 (proj2 (rows_numbered_in_order [pointOne; pointTwo] 0 pointOne
                         ltac:(vm_compute; reflexivity) eq_refl))).
Defined.

End SessionActions.

(** ** The history under several operations, and the home screen *)

Section HistoryComposition.
Context `{JSON.codec}.

Lemma filter_id_twice (a : string) (history : list SaleRecord.t) :
  filter (fun s => SaleRecord.id s <> a)
    (filter (fun s => SaleRecord.id s <> a) history)
  = filter (fun s => SaleRecord.id s <> a) history.
Proof.
  apply filter_absent. intros s Hin. apply list_elem_of_filter in Hin. tauto.
Qed.

Lemma filter_id_swap (a b : string) (history : list SaleRecord.t) :
  filter (fun s => SaleRecord.id s <> b)
    (filter (fun s => SaleRecord.id s <> a) history)
  = filter (fun s => SaleRecord.id s <> a)
      (filter (fun s => SaleRecord.id s <> b) history).
Proof.
  induction history as [|s history IH]; [reflexivity|].
  rewrite !filter_cons.
  destruct (decide (SaleRecord.id s <> a)) as [Ha|Ha];
    destruct (decide (SaleRecord.id s <> b)) as [Hb|Hb];
    rewrite ?filter_cons;
    repeat (destruct (decide _); try contradiction);
    rewrite IH; reflexivity.
Qed.

(** Sales saved one after the other are listed newest first, in front of
    what was listed before, as long as every collection written on the way
    survives storage; no other item of the store is touched. *)
Theorem saveAll_newest_first (sales history : list SaleRecord.t)
    (st : AsyncStorage.t) :
  fst (loadSales st) = Fulfilled history ->
  (forall k, (0 < k <= length sales)%nat ->
             survives (rev (take k sales) ++ history)) ->
  fst (saveAll sales st) = Fulfilled tt /\
  fst (loadSales (snd (saveAll sales st))) = Fulfilled (rev sales ++ history) /\
  (forall key, key <> SALES_KEY -> snd (saveAll sales st) !! key = st !! key).
Proof.
  revert history st.
  induction sales as [|sale sales IH]; intros history st Hload Hsurvive.
  - change (saveAll [] st) with (Fulfilled tt, st). cbn [fst snd rev app].
    split; [reflexivity|]. split; [exact Hload|]. intros key _. reflexivity.
  - assert (Hstep : saveAll (sale :: sales) st
                    = saveAll sales
                        (<[SALES_KEY := JSON.stringify (sale :: history)]> st)).
    { cbn [saveAll]. unfold await at 1.
      rewrite (saveSale_written sale history st Hload). reflexivity. }
    rewrite Hstep.
    assert (Hfirst : survives (sale :: history)).
    { apply (Hsurvive 1%nat). cbn [length]. lia. }
    pose proof (loadSales_written _ st Hfirst) as Hload1.
    destruct (IH (sale :: history)
                (<[SALES_KEY := JSON.stringify (sale :: history)]> st))
      as (Hsaved & Hlisted & Hkeys).
    + rewrite Hload1. reflexivity.
    + intros k Hk.
      replace (rev (take k sales) ++ sale :: history)
        with (rev (take (S k) (sale :: sales)) ++ history).
      * apply Hsurvive. cbn [length]. lia.
      * cbn [take rev]. rewrite <- app_assoc. reflexivity.
    + split; [exact Hsaved|]. split.
      * rewrite Hlisted. cbn [rev]. rewrite <- app_assoc. reflexivity.
      * intros key Hkey. rewrite (Hkeys key Hkey).
        apply lookup_insert_ne. congruence.
Qed.

(** Saving a sale whose identifier is new and then deleting that identifier
    gives back the listing there was before. *)
Theorem save_then_delete_restores (sale : SaleRecord.t)
    (history : list SaleRecord.t) (st : AsyncStorage.t) :
  fst (loadSales st) = Fulfilled history ->
  (forall s, s ∈ history -> SaleRecord.id s <> SaleRecord.id sale) ->
  survives (sale :: history) ->
  survives history ->
  let st' := snd (deleteSale (SaleRecord.id sale) (snd (saveSale sale st))) in
  fst (deleteSale (SaleRecord.id sale) (snd (saveSale sale st))) = Fulfilled tt /\
  fst (loadSales st') = Fulfilled history /\
  st' = <[SALES_KEY := JSON.stringify history]> st.
Proof.
  intros Hload Hfresh Hsaved Hhistory st'. subst st'.
  rewrite (saveSale_written sale history st Hload). cbn [snd].
  pose proof (loadSales_written _ st Hsaved) as Hload1.
  rewrite (deleteSale_written (SaleRecord.id sale) (sale :: history) _
             ltac:(rewrite Hload1; reflexivity)).
  cbn [fst snd].
  rewrite filter_cons. destruct (decide _) as [Hn|_]; [contradiction|].
  rewrite (filter_absent _ history Hfresh), insert_insert_eq.
  split; [reflexivity|].
  split; [|reflexivity].
  rewrite (loadSales_written _ st Hhistory). reflexivity.
Qed.

(** Deleting the same identifier twice leaves the store as deleting it
    once, and two deletions leave the same store in either order. *)
Theorem deleteSale_twice_and_swapped (a b : string)
    (history : list SaleRecord.t) (st : AsyncStorage.t) :
  fst (loadSales st) = Fulfilled history ->
  survives (filter (fun s => SaleRecord.id s <> a) history) ->
  survives (filter (fun s => SaleRecord.id s <> b) history) ->
  deleteSale a (snd (deleteSale a st)) = deleteSale a st /\
  deleteSale b (snd (deleteSale a st)) = deleteSale a (snd (deleteSale b st)).
Proof.
  intros Hload Ha Hb.
  rewrite (deleteSale_written a history st Hload).
  rewrite (deleteSale_written b history st Hload). cbn [snd].
  pose proof (loadSales_written _ st Ha) as Hloada.
  pose proof (loadSales_written _ st Hb) as Hloadb.
  rewrite (deleteSale_written a _ _ ltac:(rewrite Hloada; reflexivity)).
  rewrite (deleteSale_written b _ _ ltac:(rewrite Hloada; reflexivity)).
  rewrite (deleteSale_written a _ _ ltac:(rewrite Hloadb; reflexivity)).
  rewrite !insert_insert_eq, filter_id_twice, filter_id_swap.
  split; reflexivity.
Qed.


(** When the stored text is not JSON the home screen never leaves its
    loading state: the focus effect is rejected before it sets anything, and
    a deletion is rejected too, with the list shown and the store as they
    were. *)
Theorem corrupt_store_keeps_loading (st : AsyncStorage.t) (text : string)
    (id : string) (s : HomeScreen.state) :
  st !! SALES_KEY = Some text ->
  text <> EmptyString ->
  JSON.parse text = JSON.Throws ->
  onFocus s st = (Rejected SyntaxError, st) /\
  HomeScreen.settledState HomeScreen.initial
    (fst (onFocus HomeScreen.initial st)) = Some (HomeScreen.mk [] true) /\
  handleDelete id s st = (Rejected SyntaxError, st) /\
  HomeScreen.settledState s (fst (handleDelete id s st)) = Some s.
Proof.
  intros Hitem Hne Hparse.
  assert (Hload : loadSales st = (Rejected SyntaxError, st)).
  { unfold loadSales, await, getItem, AsyncStorage.getItem. rewrite Hitem.
    destruct (String.eqb_spec text EmptyString) as [Heq|_]; [contradiction|].
    unfold parseSales. rewrite Hparse. reflexivity. }
  assert (Hfocus : forall t, onFocus t st = (Rejected SyntaxError, st)).
  { intros t. unfold onFocus, await. rewrite Hload. reflexivity. }
  assert (Hdelete : handleDelete id s st = (Rejected SyntaxError, st)).
  { unfold handleDelete, deleteSale, await. rewrite Hload. reflexivity. }
  rewrite !Hfocus, Hdelete. repeat split; reflexivity.
Qed.

End HistoryComposition.

Section HistoryCompositionOnText.
#[local] Existing Instance JSONText.reference.

Lemma saveAll_newest_first_witness :
  fst (loadSales (snd (saveAll [scenarioSale; laterSale] sampleStore)))
    = Fulfilled [laterSale; scenarioSale; olderSale].
Proof.
  refine (proj1 (proj2 (@saveAll_newest_first JSONText.reference
                          [scenarioSale; laterSale] [olderSale] sampleStore
                          sampleStore_reads _))).
  intros k Hk. cbn [length] in Hk.
  destruct k as [|[|[|k]]]; [lia| | |lia];
    (split; [discriminate | vm_compute; reflexivity]).
Defined.

Lemma save_then_delete_restores_witness :
  fst (loadSales (snd (deleteSale "sale-1"
                         (snd (saveSale scenarioSale sampleStore)))))
    = Fulfilled [olderSale].
Proof.
  refine (proj1 (proj2 (@save_then_delete_restores JSONText.reference
                         scenarioSale [olderSale] sampleStore
                         sampleStore_reads _
                         ltac:(split; [discriminate | vm_compute; reflexivity])
                         ltac:(split; [discriminate | vm_compute; reflexivity])))).
  intros s Hin. apply list_elem_of_singleton in Hin. subst s. discriminate.
Defined.

Lemma deleteSale_twice_and_swapped_witness :
  deleteSale "sale-0" (snd (deleteSale "sale-0" sampleStore))
    = deleteSale "sale-0" sampleStore.
Proof.
  apply (proj1 (@deleteSale_twice_and_swapped JSONText.reference
                  "sale-0" "sale-9" [olderSale] sampleStore
                  sampleStore_reads
                  ltac:(split; [discriminate | vm_compute; reflexivity])
                  ltac:(split; [discriminate | vm_compute; reflexivity]))).
Defined.


Lemma corrupt_store_keeps_loading_witness :
  onFocus HomeScreen.initial corruptStore = (Rejected SyntaxError, corruptStore).
Proof.
  apply (proj1 (@corrupt_store_keeps_loading JSONText.reference corruptStore
                  "[{oops" "sale-0" HomeScreen.initial
                  ltac:(vm_compute; reflexivity)
                  ltac:(discriminate)
                  ltac:(vm_compute; reflexivity))).
Defined.

End HistoryCompositionOnText.

(** ** The timer text and the relative time *)

Section Texts.
Import Utils.
Local Open Scope string_scope.
Local Open Scope Z_scope.














End Texts.
